(** * IMAP e-mail content sensor: a shallow embedding of
      [homeassistant/components/imap_email_content/sensor.py]

    The development follows the layout of the Python module:

    - Python values, exceptions and the few built-in operations the module
      relies on ([str.upper], [bytes.split], [int], [str], base64);
    - the parsed e-mail message ([email.message.Message]) and the static
      extraction helpers of [EmailContentSensor];
    - the IMAP client as an interface ([imaplib] is not part of the
      repository), and [EmailReader] on top of it, written in a
      state-and-exception monad in which mutations survive a raised
      exception, as they do in Python;
    - [EmailContentSensor.update] and [setup_platform];
    - the properties of the natural-language specification. *)

From Stdlib Require Import ZArith List String Ascii Bool Lia Zify ZifyNat DecimalString.
From stdpp Require Import base gmap strings.
Import ListNotations.

Local Open Scope string_scope.
Local Open Scope Z_scope.

(** ** Exceptions and results *)

(** The exception classes that occur in the module.  [IMAP4_error] stands for
    [imaplib.IMAP4.error] together with its subclasses ([abort], [readonly]):
    an [except imaplib.IMAP4.error] clause catches exactly these. *)
Inductive exn : Type :=
  | IMAP4_error
  | NameError (name : string)
  | AttributeError
  | IndexError
  | ValueError
  | TypeError
  | UnicodeError
  | UnboundLocalError
  | binascii_Error
  | LookupError
  | OSError.

Inductive result (A : Type) : Type :=
  | Ret (a : A)
  | Raise (e : exn).
Arguments Ret {A} a.
Arguments Raise {A} e.

Definition is_IMAP4_error (e : exn) : bool :=
  match e with IMAP4_error => true | _ => false end.

(** Binding in the pure exception fragment. *)
Definition rbind {A B} (r : result A) (k : A -> result B) : result B :=
  match r with Ret a => k a | Raise e => Raise e end.

(** [try: body / except Exception: handler] for pure code: every class above
    derives from [Exception]. *)
Definition try_except_Exception {A} (body : result A) (handler : A) : A :=
  match body with Ret a => a | Raise _ => handler end.

(** ** Bytes and strings

    Python [str] and [bytes] values are both modelled by [string] (a list of
    8-bit characters); the constructors of [PyVal] below keep the two types
    apart.  Case conversion is the ASCII one. *)

Definition bytes := string.

Definition is_ascii_char (c : ascii) : bool := (nat_of_ascii c <? 128)%nat.

Definition upper_char (c : ascii) : ascii :=
  let n := nat_of_ascii c in
  if ((97 <=? n) && (n <=? 122))%nat then ascii_of_nat (n - 32) else c.

Definition lower_char (c : ascii) : ascii :=
  let n := nat_of_ascii c in
  if ((65 <=? n) && (n <=? 90))%nat then ascii_of_nat (n + 32) else c.

Fixpoint map_string (f : ascii -> ascii) (s : string) : string :=
  match s with
  | EmptyString => EmptyString
  | String c r => String (f c) (map_string f r)
  end.

(** [str.upper] and [str.lower]. *)
Definition upper (s : string) : string := map_string upper_char s.
Definition lower (s : string) : string := map_string lower_char s.

(** ASCII white space, as used by [bytes.split()] and by [int()]. *)
Definition is_space (c : ascii) : bool :=
  let n := nat_of_ascii c in
  ((n =? 32) || ((9 <=? n) && (n <=? 13)))%nat.

(** [bytes.split()] with no argument: maximal runs of non-space bytes. *)
Fixpoint split_ws (cur : list ascii) (s : list ascii) : list bytes :=
  match s with
  | [] => match cur with [] => [] | _ => [string_of_list_ascii (rev cur)] end
  | c :: r =>
      if is_space c then
        match cur with
        | [] => split_ws [] r
        | _ => string_of_list_ascii (rev cur) :: split_ws [] r
        end
      else split_ws (c :: cur) r
  end.

Definition split (b : bytes) : list bytes := split_ws [] (list_ascii_of_string b).

(** [str(n)] for an integer. *)
Definition str_int (n : Z) : string := NilZero.string_of_int (Z.to_int n).

(** [str(x)] and the [{x}] of an f-string for [x : int | None]. *)
Definition str_opt_int (x : option Z) : string :=
  match x with Some n => str_int n | None => "None" end.

Definition digit_val (c : ascii) : option Z :=
  let n := nat_of_ascii c in
  if ((48 <=? n) && (n <=? 57))%nat then Some (Z.of_nat (n - 48)) else None.

(** Digits of an [int()] literal: decimal digits, single underscores allowed
    between two digits.  [prev] tells whether the previous character was a
    digit. *)
Fixpoint int_digits (acc : Z) (prev : bool) (s : list ascii) : option Z :=
  match s with
  | [] => if prev then Some acc else None
  | c :: r =>
      match digit_val c with
      | Some d => int_digits (10 * acc + d) true r
      | None =>
          if (Ascii.eqb c "_" && prev)%bool then
            match r with
            | [] => None
            | _ => int_digits acc false r
            end
          else None
      end
  end.

Fixpoint drop_spaces (s : list ascii) : list ascii :=
  match s with
  | c :: r => if is_space c then drop_spaces r else s
  | [] => []
  end.

Definition strip (s : list ascii) : list ascii :=
  rev (drop_spaces (rev (drop_spaces s))).

(** [int(x)] for a [bytes] or [str] argument, base ten; [ValueError] when the
    text is not an integer literal. *)
Definition int (b : bytes) : result Z :=
  let body := strip (list_ascii_of_string b) in
  let parsed :=
    match body with
    | "-"%char :: r => option_map Z.opp (int_digits 0 false r)
    | "+"%char :: r => int_digits 0 false r
    | _ => int_digits 0 false body
    end in
  match parsed with Some n => Ret n | None => Raise ValueError end.

(** ** Base64 ([base64.b64encode], [base64.b64decode]) *)

Definition b64_alphabet : list ascii :=
  list_ascii_of_string
    "ABCDEFGHIJKLMNOPQRSTUVWXYZabcdefghijklmnopqrstuvwxyz0123456789+/".

Definition b64_char (n : nat) : ascii := nth n b64_alphabet "="%char.

Fixpoint index_of (c : ascii) (l : list ascii) (i : nat) : option nat :=
  match l with
  | [] => None
  | x :: r => if Ascii.eqb x c then Some i else index_of c r (S i)
  end.

Definition b64_value (c : ascii) : option nat := index_of c b64_alphabet 0%nat.

Fixpoint b64encode_list (l : list ascii) : list ascii :=
  match l with
  | [] => []
  | [a] =>
      let x := nat_of_ascii a in
      [b64_char (x / 4); b64_char ((x mod 4) * 16); "="%char; "="%char]
  | [a; b] =>
      let x := nat_of_ascii a in
      let y := nat_of_ascii b in
      [b64_char (x / 4); b64_char ((x mod 4) * 16 + y / 16);
       b64_char ((y mod 16) * 4); "="%char]
  | a :: b :: c :: r =>
      let x := nat_of_ascii a in
      let y := nat_of_ascii b in
      let z := nat_of_ascii c in
      b64_char (x / 4) :: b64_char ((x mod 4) * 16 + y / 16)
        :: b64_char ((y mod 16) * 4 + z / 64) :: b64_char (z mod 64)
        :: b64encode_list r
  end%nat.

Definition b64encode (b : bytes) : bytes :=
  string_of_list_ascii (b64encode_list (list_ascii_of_string b)).

(** [binascii.a2b_base64] in its default, non-strict mode, which is what
    [base64.b64decode(s)] runs: characters outside the alphabet are skipped, a
    complete pad sequence ends the input, and leftover characters of an
    unfinished quad are an error.  [out] is accumulated in reverse. *)
Fixpoint a2b_base64 (s : list ascii) (quad_pos leftchar pads : nat)
    (out : list ascii) : result (list ascii) :=
  match s with
  | [] => if (quad_pos =? 0)%nat then Ret (rev out) else Raise binascii_Error
  | ch :: rest =>
      if Ascii.eqb ch "="%char then
        if (2 <=? quad_pos)%nat then
          if (4 <=? quad_pos + S pads)%nat then Ret (rev out)
          else a2b_base64 rest quad_pos leftchar (S pads) out
        else a2b_base64 rest quad_pos leftchar pads out
      else
        match b64_value ch with
        | None => a2b_base64 rest quad_pos leftchar pads out
        | Some v =>
            match quad_pos with
            | 0%nat => a2b_base64 rest 1%nat v 0%nat out
            | 1%nat =>
                a2b_base64 rest 2%nat (v mod 16)%nat 0%nat
                  (ascii_of_nat (leftchar * 4 + v / 16) :: out)
            | 2%nat =>
                a2b_base64 rest 3%nat (v mod 4)%nat 0%nat
                  (ascii_of_nat (leftchar * 16 + v / 4) :: out)
            | _ =>
                a2b_base64 rest 0%nat 0%nat 0%nat
                  (ascii_of_nat (leftchar * 64 + v) :: out)
            end
        end
  end.

Definition b64decode (b : bytes) : result bytes :=
  rbind (a2b_base64 (list_ascii_of_string b) 0 0 0 [])
        (fun l => Ret (string_of_list_ascii l)).

(** [bytes(s, 'ascii')] and [b.decode('ascii')]. *)
Definition all_ascii (s : string) : bool :=
  forallb is_ascii_char (list_ascii_of_string s).

Definition encode_ascii (s : string) : result bytes :=
  if all_ascii s then Ret s else Raise UnicodeError.

Definition decode_ascii (b : bytes) : result string :=
  if all_ascii b then Ret b else Raise UnicodeError.

(** ** Python values and parsed messages *)

(** The values that flow through the sensor: [None], [bool], [str], [bytes],
    and the list of sub-messages that [Message.get_payload()] returns for a
    multipart message.  A [Message] carries its header fields in document
    order, the normalised content type reported by [get_content_type()], and
    its payload. *)
Inductive PyVal : Type :=
  | VNone
  | VBool (b : bool)
  | VStr (s : string)
  | VBytes (b : bytes)
  | VParts (parts : list Message)
with Message : Type :=
  | MkMessage (headers : list (string * string)) (content_type : string)
      (payload : PyVal).

Definition headers (m : Message) : list (string * string) :=
  match m with MkMessage h _ _ => h end.

(** [part.get_content_type()] *)
Definition get_content_type (m : Message) : string :=
  match m with MkMessage _ c _ => c end.

(** [part.get_payload()] *)
Definition get_payload (m : Message) : PyVal :=
  match m with MkMessage _ _ p => p end.

(** [email_message[name]]: the first field whose name matches, compared
    without regard to case; [None] when the field is missing. *)
Fixpoint find_header (name : string) (l : list (string * string)) : option string :=
  match l with
  | [] => None
  | (k, v) :: r => if String.eqb (lower k) (lower name) then Some v else find_header name r
  end.

Definition getitem (m : Message) (name : string) : option string :=
  find_header name (headers m).

(** [email_message.walk()]: the message itself, then, for a multipart
    message, the walk of each sub-part in order (depth first). *)
Fixpoint walk (m : Message) : list Message :=
  match m with
  | MkMessage _ _ p =>
      m :: match p with
           | VParts parts =>
               (fix walk_parts (l : list Message) : list Message :=
                  match l with
                  | [] => []
                  | x :: r => (walk x ++ walk_parts r)%list
                  end) parts
           | _ => []
           end
  end.

(** Python truth value. *)
Definition truthy (v : PyVal) : bool :=
  match v with
  | VNone => false
  | VBool b => b
  | VStr s | VBytes s => negb (String.eqb s "")
  | VParts l => match l with [] => false | _ => true end
  end.

Definition is_None (v : PyVal) : bool :=
  match v with VNone => true | _ => false end.

Definition of_opt_str (o : option string) : PyVal :=
  match o with Some s => VStr s | None => VNone end.

(** ** Constants *)

(** Modelled from the spec: [homeassistant.const.CONTENT_TYPE_TEXT_PLAIN] is
    imported, not defined, by the module; the specification names the
    category [text/plain]. *)
Definition CONTENT_TYPE_TEXT_PLAIN : string := "text/plain".

(** Modelled from the spec: [homeassistant.const.ATTR_DATE] is imported, not
    defined, by the module; the specification names the attribute [date]. *)
Definition ATTR_DATE : string := "date".

Definition ATTR_FROM : string := "from".
Definition ATTR_BODY : string := "body".
Definition ATTR_SUBJECT : string := "subject".
Definition DEFAULT_PORT : Z := 993.

(** ** Name resolution

    A bare name inside a function body is looked up among the module's
    globals (and then the built-ins); names bound in a class body are
    attributes of the class and are not found that way. *)

(** Every name bound at module level: imports, constants, the function and
    the two classes. *)
Definition module_names : list string :=
  [ "annotations"; "deque"; "base64"; "datetime"; "email"; "imaplib"; "logging";
    "vol"; "PLATFORM_SCHEMA"; "SensorEntity"; "ATTR_DATE"; "CONF_NAME";
    "CONF_PASSWORD"; "CONF_PORT"; "CONF_USERNAME"; "CONF_VALUE_TEMPLATE";
    "CONTENT_TYPE_TEXT_PLAIN"; "HomeAssistant"; "cv"; "AddEntitiesCallback";
    "ConfigType"; "DiscoveryInfoType"; "_LOGGER"; "CONF_SERVER"; "CONF_SENDERS";
    "CONF_FOLDER"; "ATTR_FROM"; "ATTR_BODY"; "ATTR_SUBJECT"; "DEFAULT_PORT";
    "setup_platform"; "EmailReader"; "EmailContentSensor" ].

(** The names bound in the body of [class EmailContentSensor]. *)
Definition EmailContentSensor_names : list string :=
  [ "__init__"; "name"; "native_value"; "extra_state_attributes";
    "render_template"; "sender_allowed"; "get_msg_sender"; "get_msg_subject";
    "get_msg_text"; "is_base64"; "get_plain_text"; "update" ].

(** The built-in names the module uses. *)
Definition builtin_names : list string :=
  [ "None"; "True"; "False"; "str"; "int"; "bytes"; "isinstance";
    "ValueError"; "Exception" ].

Definition load_global (name : string) : result unit :=
  if existsb (String.eqb name) (module_names ++ builtin_names)
  then Ret tt else Raise (NameError name).

(** A call [name(arg)] of a bare name with one positional argument.  The only
    such calls in the module are [is_base64(message_text)] and
    [get_plain_text(message_text)].  The continuation after a successful
    lookup covers the objects the module itself defines: [setup_platform] and
    the two classes need more than one argument. *)
Definition call_global (name : string) (arg : PyVal) : result PyVal :=
  rbind (load_global name) (fun _ => Raise TypeError).

(** ** The [email] package

    What the module takes from the [email] package of the standard library.
    Decoding a header may raise ([LookupError] for an unknown charset,
    [UnicodeError] for bytes that do not decode). *)
Class EmailCodec : Type := {
  (** [email.message_from_bytes] *)
  message_from_bytes : bytes -> Message;
  (** [str(email.header.make_header(email.header.decode_header(h)))] *)
  decode_header_str : string -> result string;
  (** [email.utils.parseaddr(s)] for a string [s] *)
  parseaddr_str : string -> string * string
}.

(** ** Address parsing

    [email.utils.parseaddr] belongs to the Python standard library.  A field
    that is absent gives the pair of empty strings.  For a single mailbox
    written plainly, [addr-spec] or [phrase <addr-spec>] without comments,
    quotes, groups, lists or folding, the result is computed here
    ([parse_mailbox]); for every other string it is whatever the library
    returns ([parseaddr_str]). *)

Fixpoint take_until (stop : ascii) (s : list ascii) : list ascii * option (list ascii) :=
  match s with
  | [] => ([], None)
  | c :: r =>
      if Ascii.eqb c stop then ([], Some r)
      else let '(a, b) := take_until stop r in (c :: a, b)
  end.

Definition double_quote : ascii := ascii_of_nat 34.

Definition unquote (s : list ascii) : list ascii :=
  filter (fun c => negb (Ascii.eqb c double_quote)) s.

Definition parse_mailbox (s : string) : string * string :=
  let l := list_ascii_of_string s in
  match take_until "<"%char l with
  | (before, Some after) =>
      let '(addr, _) := take_until ">"%char after in
      (string_of_list_ascii (strip (unquote before)),
       string_of_list_ascii (filter (fun c => negb (is_space c)) addr))
  | (_, None) =>
      ("", string_of_list_ascii (filter (fun c => negb (is_space c)) l))
  end.

(** The special characters of RFC 2822, by code: parentheses, angle
    brackets, at sign, comma, colon, semicolon, dot, backslash, double quote
    and square brackets. *)
Definition is_special (c : ascii) : bool :=
  existsb (Nat.eqb (nat_of_ascii c))
    [40; 41; 60; 62; 64; 44; 58; 59; 46; 92; 34; 91; 93]%nat.

Definition is_atom_char (c : ascii) : bool :=
  let n := nat_of_ascii c in
  ((33 <=? n) && (n <=? 126))%nat && negb (is_special c).

Definition is_word_char (c : ascii) : bool :=
  (is_atom_char c || Ascii.eqb c ".")%bool.

(** [local@domain], both parts non-empty and made of atoms and dots. *)
Definition addr_spec_plain (l : list ascii) : bool :=
  match take_until "@"%char l with
  | (local_part, Some domain) =>
      (negb (Nat.eqb (length local_part) 0) && negb (Nat.eqb (length domain) 0)
       && forallb is_word_char local_part && forallb is_word_char domain)%bool
  | (_, None) => false
  end.

(** Words separated by single spaces; [prev_space] tells whether the
    previous character was a space (or there was none). *)
Fixpoint words_plain (prev_space : bool) (l : list ascii) : bool :=
  match l with
  | [] => negb prev_space
  | c :: r =>
      if Ascii.eqb c " " then (negb prev_space && words_plain true r)%bool
      else (is_word_char c && words_plain false r)%bool
  end.

(** A display name: nothing, or words separated by single spaces, with at
    most one space before the angle bracket. *)
Definition phrase_plain (l : list ascii) : bool :=
  let body := match rev l with
              | c :: r => if Ascii.eqb c " " then rev r else l
              | [] => l
              end in
  match body with
  | [] => true
  | _ => words_plain true body
  end.

Definition plain_mailbox (s : string) : bool :=
  let l := list_ascii_of_string s in
  match take_until "<"%char l with
  | (before, Some after) =>
      match take_until ">"%char after with
      | (addr, Some []) => (phrase_plain before && addr_spec_plain addr)%bool
      | _ => false
      end
  | (_, None) => addr_spec_plain l
  end.

(** [email.utils.parseaddr(field)]; a field that is not a string (here: the
    [None] of a missing header) yields the pair of empty strings. *)
Definition parseaddr {codec : EmailCodec} (field : option string) : string * string :=
  match field with
  | None => ("", "")
  | Some s => if plain_mailbox s then parse_mailbox s else parseaddr_str s
  end.


(** ** The state-and-exception monad

    A Python method mutates [self] and may raise.  What it has written before
    raising stays written, so a computation over a state [St] returns the
    final state together with either a value or the exception. *)

Definition M (St A : Type) : Type := St -> St * result A.

Definition ret {St A} (a : A) : M St A := fun s => (s, Ret a).

Definition raise {St A} (e : exn) : M St A := fun s => (s, Raise e).

Definition bind {St A B} (m : M St A) (k : A -> M St B) : M St B :=
  fun s =>
    match m s with
    | (s', Ret a) => k a s'
    | (s', Raise e) => (s', Raise e)
    end.

Definition lift {St A} (r : result A) : M St A := fun s => (s, r).

Definition get {St} : M St St := fun s => (s, Ret s).

Definition modify {St} (f : St -> St) : M St unit := fun s => (f s, Ret tt).

(** [try: body / except C: handler], where [caught] decides membership in
    the class [C]. *)
Definition try_except {St A} (body : M St A) (caught : exn -> bool)
    (handler : M St A) : M St A :=
  fun s =>
    match body s with
    | (s', Raise e) => if caught e then handler s' else (s', Raise e)
    | r => r
    end.

(** Run a computation on the second component of a pair of states. *)
Definition zoom {S1 S2 A} (m : M S2 A) : M (S1 * S2) A :=
  fun '(a, s) => let '(s', r) := m s in ((a, s'), r).

Declare Scope py_scope.
Delimit Scope py_scope with py.
Notation "x <- m ;; k" := (bind m (fun x => k))
  (at level 100, m at next level, right associativity) : py_scope.
Notation "m ;; k" := (bind m (fun _ => k))
  (at level 100, right associativity) : py_scope.

(** ** The IMAP client, the clock and the e-mail parser

    [imaplib], [datetime] and [email] are external to the repository.  A call
    on the IMAP client acts on the outside world and either returns or raises
    (an [imaplib.IMAP4.error] or any other exception); the model makes no
    assumption on which. *)

(** One element of the [message_data] list of a [uid("fetch", ...)]
    response. *)
Inductive FetchItem : Type :=
  | FetchNone
  | FetchTuple (envelope raw_email : bytes)
  | FetchBytes (b : bytes).

Record Date : Type := { year : Z; month : nat; day : nat }.

Class ImapClient (World Conn : Type) : Type := {
  (** [imaplib.IMAP4_SSL(server, port)] *)
  IMAP4_SSL : string -> Z -> World -> World * result Conn;
  (** [connection.login(user, password)] *)
  imap_login : Conn -> string -> string -> World -> World * result unit;
  (** [connection.select(folder, readonly=True)] *)
  imap_select : Conn -> string -> World -> World * result unit;
  (** [connection.uid("search", None, criteria)]: the [data] component *)
  imap_uid_search : Conn -> string -> World -> World * result (list (option bytes));
  (** [connection.uid("fetch", uid, "(RFC822)")]: the [message_data] component *)
  imap_uid_fetch : Conn -> string -> World -> World * result (option (list FetchItem));
  (** [datetime.date.today()] *)
  date_today : World -> Date
}.

(** What the module asks of the outside world, in program order. *)
Inductive Event : Type :=
  | EvOpen (server : string) (port : Z)
  | EvLogin (user password : string)
  | EvSelect (folder : string)
  | EvSearch (criteria : string)
  | EvFetch (message_uid : string)
  | EvLogError (msg : string)
  | EvLogInfo (msg : string).

(** [f"{d:%d-%b-%Y}"] *)
Definition month_abbr (m : nat) : string :=
  nth (m - 1) ["Jan"; "Feb"; "Mar"; "Apr"; "May"; "Jun"; "Jul"; "Aug"; "Sep";
               "Oct"; "Nov"; "Dec"] "".

Definition two_digits (n : nat) : string :=
  if (n <? 10)%nat then "0" +:+ str_int (Z.of_nat n) else str_int (Z.of_nat n).

Definition strftime_d_b_Y (d : Date) : string :=
  two_digits (day d) +:+ "-" +:+ month_abbr (month d) +:+ "-" +:+ str_int (year d).

(** ** [class EmailReader] *)

Module EmailReader.
Section WithClient.
Context {World Conn : Type} `{!ImapClient World Conn} `{!EmailCodec}.
Local Open Scope py_scope.

Record Self : Type := {
  _user : string;
  _password : string;
  _server : string;
  _port : Z;
  _folder : string;
  _last_id : option Z;
  _unread_ids : list bytes;
  connection : option Conn
}.

(** The reader object, the outside world, and the record of what has been
    asked of the world so far. *)
Record Sys : Type := {
  reader : Self;
  world : World;
  events : list Event
}.

Definition __init__ (user password server : string) (port : Z)
    (folder : string) : Self :=
  {| _user := user; _password := password; _server := server; _port := port;
     _folder := folder; _last_id := None; _unread_ids := []; connection := None |}.

Definition set_last_id (v : option Z) (r : Self) : Self :=
  {| _user := _user r; _password := _password r; _server := _server r;
     _port := _port r; _folder := _folder r; _last_id := v;
     _unread_ids := _unread_ids r; connection := connection r |}.

Definition set_unread_ids (v : list bytes) (r : Self) : Self :=
  {| _user := _user r; _password := _password r; _server := _server r;
     _port := _port r; _folder := _folder r; _last_id := _last_id r;
     _unread_ids := v; connection := connection r |}.

Definition set_connection (v : option Conn) (r : Self) : Self :=
  {| _user := _user r; _password := _password r; _server := _server r;
     _port := _port r; _folder := _folder r; _last_id := _last_id r;
     _unread_ids := _unread_ids r; connection := v |}.

Definition self : M Sys Self := fun s => (s, Ret (reader s)).

Definition assign (f : Self -> Self) : M Sys unit :=
  modify (fun s => {| reader := f (reader s); world := world s; events := events s |}).

Definition emit (e : Event) : M Sys unit :=
  modify (fun s => {| reader := reader s; world := world s;
                      events := (events s ++ [e])%list |}).

(** A call on the outside world, recorded before it is made. *)
Definition call {A} (e : Event) (op : World -> World * result A) : M Sys A :=
  fun s =>
    let '(w, r) := op (world s) in
    ({| reader := reader s; world := w; events := (events s ++ [e])%list |}, r).

(** [self.connection.<method>]: attribute access on [None] raises. *)
Definition the_connection : M Sys Conn :=
  me <- self ;;
  match connection me with
  | Some c => ret c
  | None => raise AttributeError
  end.

(** [EmailReader.connect] *)
Definition connect : M Sys bool :=
  try_except
    (me <- self ;;
     c <- call (EvOpen (_server me) (_port me)) (IMAP4_SSL (_server me) (_port me)) ;;
     assign (set_connection (Some c)) ;;
     call (EvLogin (_user me) (_password me)) (imap_login c (_user me) (_password me)) ;;
     ret true)
    is_IMAP4_error
    (me <- self ;;
     emit (EvLogError ("Failed to login to " +:+ _server me)) ;;
     ret false).

(** What [_fetch_message] makes of the [message_data] of the response. *)
Definition fetched_message (message_data : option (list FetchItem))
  : result (option Message) :=
  match message_data with
  | None => Ret None
  | Some [] => Raise IndexError
  | Some (FetchNone :: _) => Ret None
  | Some (FetchTuple _ raw_email :: _) => Ret (Some (message_from_bytes raw_email))
  | Some (FetchBytes b :: _) =>
      Raise (if (String.length b <? 2)%nat then IndexError else AttributeError)
  end.

(** [EmailReader._fetch_message] *)
Definition _fetch_message (message_uid : string) : M Sys (option Message) :=
  c <- the_connection ;;
  message_data <- call (EvFetch message_uid) (imap_uid_fetch c message_uid) ;;
  lift (fetched_message message_data).

(** The [while self._unread_ids:] loop of [read_next], entered with
    [queue] equal to [self._unread_ids].  [Some r] is the [return] taken
    inside the loop, [None] the normal exit with an empty queue. *)
Fixpoint read_next_loop (queue : list bytes) : M Sys (option (option Message)) :=
  match queue with
  | [] => ret None
  | message_uid :: rest =>
      assign (set_unread_ids rest) ;;
      me <- self ;;
      newer <- match _last_id me with
               | None => ret true
               | Some last => n <- lift (int message_uid) ;; ret (last <? n)
               end ;;
      if newer : bool then
        n <- lift (int message_uid) ;;
        assign (set_last_id (Some n)) ;;
        m <- _fetch_message message_uid ;;
        ret (Some m)
      else read_next_loop rest
  end.

(** The search criterion of [read_next]. *)
Definition search_criterion (today : Date) (last_id : option Z) : string :=
  match last_id with
  | None => "SINCE " +:+ strftime_d_b_Y today
  | Some n => "UID " +:+ str_int n +:+ ":*"
  end.

(** [read_next], the [if not self._unread_ids:] block. *)
Definition read_next_search : M Sys unit :=
  me <- self ;;
  match _unread_ids me with
  | [] =>
      s <- get ;;
      let search := search_criterion (date_today (world s)) (_last_id me) in
      c <- the_connection ;;
      data <- call (EvSearch search) (imap_uid_search c search) ;;
      match data with
      | [] => raise IndexError
      | None :: _ => raise AttributeError
      | Some d :: _ => assign (set_unread_ids (split d))
      end
  | _ => ret tt
  end.

(** [read_next], the [while] loop and the [return] that follows it. *)
Definition read_next_deliver : M Sys (option Message) :=
  me <- self ;;
  found <- read_next_loop (_unread_ids me) ;;
  match found with
  | Some m => ret m
  | None => me <- self ;; _fetch_message (str_opt_int (_last_id me))
  end.

(** The body of the outer [try] of [read_next]. *)
Definition read_next_try : M Sys (option Message) :=
  c <- the_connection ;;
  me <- self ;;
  call (EvSelect (_folder me)) (imap_select c (_folder me)) ;;
  read_next_search ;;
  read_next_deliver.

(** The [except imaplib.IMAP4.error] handler of [read_next], followed by
    the final [return None]. *)
Definition read_next_except : M Sys (option Message) :=
  me <- self ;;
  emit (EvLogInfo ("Connection to " +:+ _server me +:+ " lost, attempting to reconnect")) ;;
  try_except
    (connect ;;
     emit (EvLogInfo ("Reconnect to " +:+ _server me +:+ " succeeded, trying last message")) ;;
     me <- self ;;
     match _last_id me with
     | Some n => _fetch_message (str_int n)
     | None => ret None
     end)
    is_IMAP4_error
    (emit (EvLogError "Failed to reconnect") ;; ret None).

(** [EmailReader.read_next] *)
Definition read_next : M Sys (option Message) :=
  try_except read_next_try is_IMAP4_error read_next_except.

End WithClient.
Arguments Self : clear implicits.
Arguments Sys : clear implicits.
End EmailReader.

(** ** [class EmailContentSensor] *)

(** A value template of the host platform;
    [render t variables] is [t.render(variables, parse_result=False)]. *)
Class TemplateEngine (Template : Type) : Type := {
  render : Template -> gmap string PyVal -> result string
}.

Module EmailContentSensor.

(** [EmailContentSensor.get_msg_sender] *)
Definition get_msg_sender {codec : EmailCodec} (email_message : Message) : string :=
  snd (parseaddr (getitem email_message "From")).

(** [is_base64(self, message_text)]: a method of the class.  [self] plays no
  part in the body. *)
Definition is_base64 (message_text : PyVal) : bool :=
try_except_Exception
  (rbind
     match message_text with
     | VStr s => encode_ascii s
     | VBytes b => Ret b
     | _ => Raise ValueError
     end
     (fun message_text_bytes =>
        rbind (b64decode message_text_bytes)
              (fun d => Ret (String.eqb (b64encode d) message_text_bytes))))
  false.

(** [get_plain_text(self, message_text)]: a method of the class.  For an
  argument that is neither [str] nor [bytes] the local variable is never
  assigned. *)
Definition get_plain_text (message_text : PyVal) : string :=
try_except_Exception
  (rbind
     match message_text with
     | VStr s => encode_ascii s
     | VBytes b => Ret b
     | _ => Raise UnboundLocalError
     end
     (fun message_text_bytes =>
        rbind (b64decode message_text_bytes) decode_ascii))
  "Could Not Convert From Base64".

(** The body of the [for part in email_message.walk()] loop of
  [get_msg_text], threaded through the three local variables. *)
Fixpoint get_msg_text_loop (parts : list Message)
  (message_text message_html message_untyped_text : PyVal)
: result (PyVal * PyVal * PyVal) :=
match parts with
| [] => Ret (message_text, message_html, message_untyped_text)
| part :: rest =>
    if String.eqb (get_content_type part) CONTENT_TYPE_TEXT_PLAIN then
      let message_text :=
        if is_None message_text then get_payload part else message_text in
      rbind (call_global "is_base64" message_text) (fun b =>
        if truthy b then
          rbind (call_global "get_plain_text" message_text) (fun t =>
            get_msg_text_loop rest t message_html message_untyped_text)
        else get_msg_text_loop rest message_text message_html message_untyped_text)
    else if String.eqb (get_content_type part) "text/html" then
      let message_html :=
        if is_None message_html then get_payload part else message_html in
      get_msg_text_loop rest message_text message_html message_untyped_text
    else if (String.prefix "text" (get_content_type part)
             && is_None message_untyped_text)%bool then
      get_msg_text_loop rest message_text message_html (get_payload part)
    else get_msg_text_loop rest message_text message_html message_untyped_text
end.

(** [EmailContentSensor.get_msg_text] *)
Definition get_msg_text (email_message : Message) : result PyVal :=
rbind (get_msg_text_loop (walk email_message) VNone VNone VNone)
  (fun '(message_text, message_html, message_untyped_text) =>
     if negb (is_None message_text) then Ret message_text
     else if negb (is_None message_html) then Ret message_html
     else if negb (is_None message_untyped_text) then Ret message_untyped_text
     else Ret (get_payload email_message)).

Section WithHost.
Context {World Conn Template : Type}
        `{!ImapClient World Conn} `{!EmailCodec} `{!TemplateEngine Template}.
Local Open Scope py_scope.

Record Self : Type := {
  _name : string;
  _allowed_senders : list string;
  _value_template : option Template;
  _last_id : option Z;
  _message : option string;
  _state_attributes : option (gmap string PyVal);
  connected : bool
}.

(** The sensor object next to the reader it holds in [self._email_reader]
    and the outside world. *)
Definition State : Type := (Self * EmailReader.Sys World Conn)%type.

Definition set_message (v : option string) (r : Self) : Self :=
  {| _name := _name r; _allowed_senders := _allowed_senders r;
     _value_template := _value_template r; _last_id := _last_id r;
     _message := v; _state_attributes := _state_attributes r;
     connected := connected r |}.

Definition set_state_attributes (v : option (gmap string PyVal)) (r : Self) : Self :=
  {| _name := _name r; _allowed_senders := _allowed_senders r;
     _value_template := _value_template r; _last_id := _last_id r;
     _message := _message r; _state_attributes := v;
     connected := connected r |}.

Definition self : M State Self := fun s => (s, Ret (fst s)).

Definition assign (f : Self -> Self) : M State unit :=
  modify (fun s : State => (f (fst s), snd s)).

(** [EmailContentSensor.__init__] *)
Definition __init__ (name : string) (allowed_senders : list string)
    (value_template : option Template) : M (EmailReader.Sys World Conn) Self :=
  c <- EmailReader.connect ;;
  ret {| _name := name;
         _allowed_senders := map upper allowed_senders;
         _value_template := value_template;
         _last_id := None;
         _message := None;
         _state_attributes := None;
         connected := c |}.

(** [EmailContentSensor.native_value] and [extra_state_attributes] *)
Definition native_value (me : Self) : option string := _message me.
Definition extra_state_attributes (me : Self) : option (gmap string PyVal) :=
  _state_attributes me.

(** [EmailContentSensor.get_msg_subject]; [decode_header] of a missing
    field raises [TypeError], and decoding the field that is there raises
    whatever the library raises on it. *)
Definition get_msg_subject (email_message : Message) : result string :=
  match getitem email_message "Subject" with
  | None => Raise TypeError
  | Some h => decode_header_str h
  end.

(** [EmailContentSensor.sender_allowed] *)
Definition sender_allowed (me : Self) (email_message : Message) : bool :=
  existsb (String.eqb (upper (get_msg_sender email_message))) (_allowed_senders me).

(** The dictionary built, entry by entry, in [render_template] and in
    [update]. *)
Definition message_fields (email_message : Message) : result (gmap string PyVal) :=
  let sender := get_msg_sender email_message in
  rbind (get_msg_subject email_message) (fun subject =>
  let date := getitem email_message "Date" in
  rbind (get_msg_text email_message) (fun body =>
  Ret (<[ATTR_FROM := VStr sender]>
       (<[ATTR_SUBJECT := VStr subject]>
        (<[ATTR_DATE := of_opt_str date]>
         (<[ATTR_BODY := body]> ∅)))))).

(** [EmailContentSensor.render_template] *)
Definition render_template (t : Template) (email_message : Message) : result string :=
  rbind (message_fields email_message) (render t).

(** [EmailContentSensor.update] *)
Definition update : M State unit :=
  email_message <- zoom EmailReader.read_next ;;
  match email_message with
  | None =>
      assign (set_message None) ;;
      assign (set_state_attributes (Some ∅))
  | Some email_message =>
      me <- self ;;
      if sender_allowed me email_message then
        message <- lift (get_msg_subject email_message) ;;
        message <- match _value_template me with
                   | Some t => lift (render_template t email_message)
                   | None => ret message
                   end ;;
        assign (set_message (Some message)) ;;
        attributes <- lift (message_fields email_message) ;;
        assign (set_state_attributes (Some attributes))
      else ret tt
  end.

End WithHost.
Arguments Self : clear implicits.
End EmailContentSensor.

(** ** [setup_platform] *)

Section Setup.
Context {World Conn Template : Type}
        `{!ImapClient World Conn} `{!EmailCodec} `{!TemplateEngine Template}.

(** The validated platform configuration ([PLATFORM_SCHEMA]). *)
Record Config : Type := {
  CONF_NAME : option string;
  CONF_USERNAME : string;
  CONF_PASSWORD : string;
  CONF_SERVER : string;
  CONF_SENDERS : list string;
  CONF_PORT : Z;
  CONF_VALUE_TEMPLATE : option Template;
  CONF_FOLDER : string
}.

(** [config.get(CONF_NAME) or config.get(CONF_USERNAME)] *)
Definition sensor_name (config : Config) : string :=
  match CONF_NAME config with
  | Some n => if String.eqb n "" then CONF_USERNAME config else n
  | None => CONF_USERNAME config
  end.

(** [setup_platform], run in the world [w].  The list returned is the
    argument of the [add_entities] call; it is empty when the call is not
    made. *)
Definition setup_platform (config : Config) (w : World)
  : EmailReader.Sys World Conn * result (list (EmailContentSensor.Self Template)) :=
  let reader :=
    EmailReader.__init__ (CONF_USERNAME config) (CONF_PASSWORD config)
      (CONF_SERVER config) (CONF_PORT config) (CONF_FOLDER config) in
  let s0 := {| EmailReader.reader := reader; EmailReader.world := w;
               EmailReader.events := [] |} in
  match EmailContentSensor.__init__ (sensor_name config) (CONF_SENDERS config)
          (CONF_VALUE_TEMPLATE config) s0 with
  | (s1, Ret sensor) =>
      (s1, Ret (if EmailContentSensor.connected sensor then [sensor] else []))
  | (s1, Raise e) => (s1, Raise e)
  end.

End Setup.
Arguments Config : clear implicits.

(** ** A simulated environment

    A scripted IMAP server: the world is the list of replies still to come,
    and every call consumes the next one.  A reply of the wrong kind, or an
    exhausted script, surfaces as [OSError].  It instantiates the interfaces
    above wherever a property is exercised on a concrete run. *)

Module Simulated.

Inductive Reply : Type :=
  | ROpen (r : result nat)
  | RLogin (r : result unit)
  | RSelect (r : result unit)
  | RSearch (r : result (list (option bytes)))
  | RFetch (r : result (option (list FetchItem))).

Definition World : Type := list Reply.

Definition sim_open (_ : string) (_ : Z) (w : World) : World * result nat :=
  match w with ROpen r :: w' => (w', r) | _ => (w, Raise OSError) end.

Definition sim_login (_ : nat) (_ _ : string) (w : World) : World * result unit :=
  match w with RLogin r :: w' => (w', r) | _ => (w, Raise OSError) end.

Definition sim_select (_ : nat) (_ : string) (w : World) : World * result unit :=
  match w with RSelect r :: w' => (w', r) | _ => (w, Raise OSError) end.

Definition sim_search (_ : nat) (_ : string) (w : World)
  : World * result (list (option bytes)) :=
  match w with RSearch r :: w' => (w', r) | _ => (w, Raise OSError) end.

Definition sim_fetch (_ : nat) (_ : string) (w : World)
  : World * result (option (list FetchItem)) :=
  match w with RFetch r :: w' => (w', r) | _ => (w, Raise OSError) end.

#[export] Instance client : ImapClient World nat := {
  IMAP4_SSL := sim_open;
  imap_login := sim_login;
  imap_select := sim_select;
  imap_uid_search := sim_search;
  imap_uid_fetch := sim_fetch;
  date_today := fun _ => {| year := 2024; month := 3%nat; day := 7%nat |}
}.

(** A parser for single-part messages: header lines [Name: value] up to
    the first empty line, then the body. *)
Definition newline : ascii := ascii_of_nat 10.

Fixpoint lines (cur : list ascii) (s : list ascii) : list (list ascii) :=
  match s with
  | [] => [rev cur]
  | c :: r => if Ascii.eqb c newline then rev cur :: lines [] r else lines (c :: cur) r
  end.

Definition header_of_line (l : list ascii) : string * string :=
  match take_until ":"%char l with
  | (k, Some v) => (string_of_list_ascii k, string_of_list_ascii (strip v))
  | (k, None) => (string_of_list_ascii k, "")
  end.

Fixpoint parse_lines (hs : list (string * string)) (ls : list (list ascii))
  : list (string * string) * string :=
  match ls with
  | [] => (rev hs, "")
  | [] :: body =>
      (rev hs, string_of_list_ascii
                 (concat (map (fun l => (l ++ [newline])%list) (List.removelast body))
                  ++ List.last body [])%list)
  | l :: r => parse_lines (header_of_line l :: hs) r
  end.

Definition parse_message (raw : bytes) : Message :=
  let '(hs, body) := parse_lines [] (lines [] (list_ascii_of_string raw)) in
  let ctype := match find_header "Content-Type" hs with
               | Some c => lower c
               | None => "text/plain"
               end in
  MkMessage hs ctype (VStr body).

(** The codec of the runs.  Their headers have no encoded words and decode
    to themselves, except for an encoded word that names the charset
    [x-unknown], for which there is no codec: decoding it raises
    [LookupError].  Their mailboxes are plain ones. *)
#[export] Instance codec : EmailCodec := {
  message_from_bytes := parse_message;
  decode_header_str := fun h =>
    if String.prefix "=?x-unknown?" h then Raise LookupError else Ret h;
  parseaddr_str := parse_mailbox
}.

(** A template that renders to the subject variable. *)
#[export] Instance templates : TemplateEngine unit := {
  render := fun _ variables =>
    match variables !! ATTR_SUBJECT with
    | Some (VStr s) => Ret s
    | _ => Raise TypeError
    end
}.

(** A connected reader for [user@mail.example.org], folder [INBOX]. *)
Definition session (last_id : option Z) (unread_ids : list bytes) (w : World)
  : EmailReader.Sys World nat :=
  {| EmailReader.reader :=
       {| EmailReader._user := "user"; EmailReader._password := "secret";
          EmailReader._server := "mail.example.org"; EmailReader._port := DEFAULT_PORT;
          EmailReader._folder := "INBOX"; EmailReader._last_id := last_id;
          EmailReader._unread_ids := unread_ids; EmailReader.connection := Some 0%nat |};
     EmailReader.world := w;
     EmailReader.events := [] |}.

Definition config (senders : list string) : Config unit :=
  {| CONF_NAME := None; CONF_USERNAME := "user"; CONF_PASSWORD := "secret";
     CONF_SERVER := "mail.example.org"; CONF_SENDERS := senders;
     CONF_PORT := DEFAULT_PORT; CONF_VALUE_TEMPLATE := None;
     CONF_FOLDER := "INBOX" |}.

Definition mail_from_jane : bytes :=
  "From: Jane Doe <jane@example.com>
Subject: Front door
Date: Thu, 07 Mar 2024 10:00:00 +0000
Content-Type: text/html

<p>Hi</p>".

Definition mail_plain_from_jane : bytes :=
  "From: Jane Doe <jane@example.com>
Subject: Front door

SGVsbG8=".

Definition mail_without_subject : bytes :=
  "From: Jane Doe <jane@example.com>
Content-Type: text/html

<p>Hi</p>".

Definition mail_with_unknown_charset : bytes :=
  "From: Jane Doe <jane@example.com>
Subject: =?x-unknown?q?Front_door?=
Content-Type: text/html

<p>Hi</p>".

(** A sensor that has published [message] with the attributes of a mail
    from Bob. *)
Definition sensor (allowed_senders : list string) (value_template : option unit)
    (message : option string) : EmailContentSensor.Self unit :=
  {| EmailContentSensor._name := "user";
     EmailContentSensor._allowed_senders := allowed_senders;
     EmailContentSensor._value_template := value_template;
     EmailContentSensor._last_id := None;
     EmailContentSensor._message := message;
     EmailContentSensor._state_attributes := Some {[ATTR_FROM := VStr "bob@example.com"]};
     EmailContentSensor.connected := true |}.

(** A fresh session on which the first poll finds the message [raw] under
    UID 3. *)
Definition delivering (raw : bytes) : EmailReader.Sys World nat :=
  session None []
    [RSelect (Ret tt); RSearch (Ret [Some "3"]); RFetch (Ret (Some [FetchTuple "" raw]))].

End Simulated.

(** ** Vocabulary of the specification *)

(** The order on the optional last-seen UID: nothing seen yet is below every
    UID, and a recorded UID is never below "nothing". *)
Definition uid_le (a b : option Z) : Prop :=
  match a, b with
  | None, _ => True
  | Some x, Some y => x <= y
  | Some _, None => False
  end.

(** The criteria of the searches in a record of events, in order. *)
Definition searches (l : list Event) : list string :=
  flat_map (fun e => match e with EvSearch c => [c] | _ => [] end) l.

(** The session-opening attempts in a record of events, in order. *)
Definition opens (l : list Event) : list (string * Z) :=
  flat_map (fun e => match e with EvOpen s p => [(s, p)] | _ => [] end) l.

(** A computation [m] respects a relation [R] on states when its final state
    is always [R]-related to its initial one, whether it returns or raises. *)
Definition respects {St A} (R : St -> St -> Prop) (m : M St A) : Prop :=
  forall s, R s (fst (m s)).

(** The relation "the observation [f] has not changed". *)
Definition unchanged {St X} (f : St -> X) : St -> St -> Prop :=
  fun s s' => f s' = f s.

Section Observations.
Context {World Conn : Type} `{!ImapClient World Conn} `{!EmailCodec}.

Definition last_seen_uid (s : EmailReader.Sys World Conn) : option Z :=
  EmailReader._last_id (EmailReader.reader s).

Definition pending_uids (s : EmailReader.Sys World Conn) : list bytes :=
  EmailReader._unread_ids (EmailReader.reader s).

Definition issued_searches (s : EmailReader.Sys World Conn) : list string :=
  searches (EmailReader.events s).

Definition issued_opens (s : EmailReader.Sys World Conn) : list (string * Z) :=
  opens (EmailReader.events s).

(** The last-seen UID has not moved backwards. *)
Definition advanced : EmailReader.Sys World Conn -> EmailReader.Sys World Conn -> Prop :=
  fun s s' => uid_le (last_seen_uid s) (last_seen_uid s').

(** The outside world moves on between two ticks of the scheduler. *)
Definition elapse (env : World -> World) (s : EmailReader.Sys World Conn)
  : EmailReader.Sys World Conn :=
  {| EmailReader.reader := EmailReader.reader s;
     EmailReader.world := env (EmailReader.world s);
     EmailReader.events := EmailReader.events s |}.

(** A sequence of polls of one session; before each poll the world changes
    in an arbitrary way (mail arrives, is deleted, the link drops). *)
Fixpoint polls (ticks : list (World -> World)) (s : EmailReader.Sys World Conn)
  : EmailReader.Sys World Conn :=
  match ticks with
  | [] => s
  | env :: rest => polls rest (fst (EmailReader.read_next (elapse env s)))
  end.

End Observations.

(** The selection rule of the specification for the message body: the first
    payload that is not [None] among the parts selected by [sel]. *)
Fixpoint first_payload (sel : Message -> bool) (parts : list Message) : PyVal :=
  match parts with
  | [] => VNone
  | p :: rest =>
      if (sel p && negb (is_None (get_payload p)))%bool then get_payload p
      else first_payload sel rest
  end.

Definition is_text_plain (p : Message) : bool :=
  String.eqb (get_content_type p) CONTENT_TYPE_TEXT_PLAIN.

Definition is_text_html (p : Message) : bool :=
  String.eqb (get_content_type p) "text/html".

Definition is_other_text (p : Message) : bool :=
  (negb (is_text_plain p) && negb (is_text_html p)
   && String.prefix "text" (get_content_type p))%bool.

(** The first of the candidates that is not [None], else [default]. *)
Fixpoint first_not_None (candidates : list PyVal) (default : PyVal) : PyVal :=
  match candidates with
  | [] => default
  | v :: rest => if is_None v then first_not_None rest default else v
  end.

Section SessionObservations.
Context {World Conn : Type} `{!ImapClient World Conn} `{!EmailCodec}.

(** The configuration of the mailbox session held by the reader. *)
Definition reader_config (s : EmailReader.Sys World Conn)
  : string * string * string * Z * string :=
  (EmailReader._user (EmailReader.reader s),
   EmailReader._password (EmailReader.reader s),
   EmailReader._server (EmailReader.reader s),
   EmailReader._port (EmailReader.reader s),
   EmailReader._folder (EmailReader.reader s)).

(** The record of events has only grown. *)
Definition extended : EmailReader.Sys World Conn -> EmailReader.Sys World Conn -> Prop :=
  fun s s' => exists l, EmailReader.events s' = (EmailReader.events s ++ l)%list.

(** A UID [n] is newer than the last-seen UID. *)
Definition newer_than (last : option Z) (n : Z) : Prop :=
  match last with None => True | Some u => u < n end.

(** A queued token is an integer that is not newer than the last-seen UID;
    nothing qualifies while no UID has been seen. *)
Definition already_seen (last : option Z) (t : bytes) : Prop :=
  match last with
  | None => False
  | Some u => exists m, int t = Ret m /\ m <= u
  end.

End SessionObservations.

(** * Properties *)

(** ** Reasoning about computations *)

Section Respects.
Context {St : Type} (R : St -> St -> Prop).
Context {R_refl : Reflexive R} {R_trans : Transitive R}.

Lemma respects_ret {A} (a : A) : respects R (ret a).
Proof. intros s. apply R_refl. Qed.

Lemma respects_raise {A} (e : exn) : respects R (@raise St A e).
Proof. intros s. apply R_refl. Qed.

Lemma respects_lift {A} (r : result A) : respects R (lift r).
Proof. intros s. apply R_refl. Qed.

Lemma respects_get : respects R get.
Proof. intros s. apply R_refl. Qed.

Lemma respects_modify (f : St -> St) :
  (forall s, R s (f s)) -> respects R (modify f).
Proof. intros H s. apply H. Qed.

Lemma respects_bind {A B} (m : M St A) (k : A -> M St B) :
  respects R m -> (forall a, respects R (k a)) -> respects R (bind m k).
Proof.
  intros Hm Hk s. unfold bind.
  specialize (Hm s). destruct (m s) as [s' [a | e]]; simpl in *.
  - eapply R_trans; [exact Hm | apply Hk].
  - exact Hm.
Qed.

Lemma respects_try_except {A} (body handler : M St A) (caught : exn -> bool) :
  respects R body -> respects R handler ->
  respects R (try_except body caught handler).
Proof.
  intros Hb Hh s. unfold try_except.
  specialize (Hb s). destruct (body s) as [s' [a | e]]; simpl in *.
  - exact Hb.
  - destruct (caught e); simpl.
    + eapply R_trans; [exact Hb | apply Hh].
    + exact Hb.
Qed.
End Respects.

#[local] Instance unchanged_refl {St X} (f : St -> X) : Reflexive (unchanged f).
Proof. intros s. reflexivity. Qed.

#[local] Instance unchanged_trans {St X} (f : St -> X) : Transitive (unchanged f).
Proof. intros a b c H1 H2. unfold unchanged in *. congruence. Qed.

Lemma uid_le_refl (a : option Z) : uid_le a a.
Proof. destruct a; simpl; auto. lia. Qed.

Lemma uid_le_trans (a b c : option Z) : uid_le a b -> uid_le b c -> uid_le a c.
Proof. destruct a, b, c; simpl; auto; try lia; tauto. Qed.

(** ** Facts about [EmailReader] *)

Lemma searches_app (a b : list Event) : searches (a ++ b) = (searches a ++ searches b)%list.
Proof. apply flat_map_app. Qed.

Lemma opens_app (a b : list Event) : opens (a ++ b) = (opens a ++ opens b)%list.
Proof. apply flat_map_app. Qed.

Section ReaderFacts.
Context {World Conn : Type} {client : ImapClient World Conn} {codec : EmailCodec}.

#[local] Instance advanced_refl : Reflexive (advanced (World := World) (Conn := Conn)).
Proof. intros s. apply uid_le_refl. Qed.

#[local] Instance advanced_trans : Transitive (advanced (World := World) (Conn := Conn)).
Proof. intros a b c. apply uid_le_trans. Qed.

Section Generic.
Context (R : EmailReader.Sys World Conn -> EmailReader.Sys World Conn -> Prop).
Context {R_refl : Reflexive R} {R_trans : Transitive R}.

Lemma respects_self : respects R EmailReader.self.
Proof. intros s. apply R_refl. Qed.

Lemma respects_assign (f : EmailReader.Self Conn -> EmailReader.Self Conn) :
  (forall s : EmailReader.Sys World Conn,
      R s {| EmailReader.reader := f (EmailReader.reader s);
             EmailReader.world := EmailReader.world s;
             EmailReader.events := EmailReader.events s |}) ->
  respects R (EmailReader.assign f).
Proof. intros Hf s. apply Hf. Qed.

Lemma respects_emit (e : Event) :
  (forall s : EmailReader.Sys World Conn,
      R s {| EmailReader.reader := EmailReader.reader s;
             EmailReader.world := EmailReader.world s;
             EmailReader.events := (EmailReader.events s ++ [e])%list |}) ->
  respects R (EmailReader.emit e).
Proof. intros He s. apply He. Qed.

Lemma respects_call {A} (e : Event) (op : World -> World * result A) :
  (forall (s : EmailReader.Sys World Conn) w,
      R s {| EmailReader.reader := EmailReader.reader s;
             EmailReader.world := w;
             EmailReader.events := (EmailReader.events s ++ [e])%list |}) ->
  respects R (EmailReader.call e op).
Proof.
  intros He s. unfold EmailReader.call.
  destruct (op (EmailReader.world s)) as [w r]. apply He.
Qed.
End Generic.

(** Break a computation into its steps; what is left are the assignments,
    the log entries and the calls on the outside world. *)
Ltac respects_steps :=
  repeat first
    [ apply respects_ret | apply respects_raise | apply respects_lift
    | apply respects_get | apply respects_self
    | apply respects_bind
    | apply respects_try_except
    | apply respects_assign
    | apply respects_emit
    | apply respects_call
    | match goal with
      | |- Reflexive _ => exact _
      | |- Transitive _ => exact _
      | |- forall _, _ => intros ?
      | |- respects _ (match ?x with _ => _ end) => destruct x
      end ].

Ltac observe :=
  intros; unfold unchanged, advanced, last_seen_uid, pending_uids, issued_searches,
    issued_opens; simpl;
  rewrite ?searches_app, ?opens_app; simpl; rewrite ?app_nil_r;
  auto using uid_le_refl.

Lemma connect_keeps_last_seen : respects (unchanged last_seen_uid) EmailReader.connect.
Proof. unfold EmailReader.connect. respects_steps; observe. Qed.

Lemma connect_no_search : respects (unchanged issued_searches) EmailReader.connect.
Proof. unfold EmailReader.connect. respects_steps; observe. Qed.

Lemma fetch_keeps_last_seen uid :
  respects (unchanged last_seen_uid) (EmailReader._fetch_message uid).
Proof. unfold EmailReader._fetch_message, EmailReader.the_connection. respects_steps; observe. Qed.

Lemma fetch_no_search uid :
  respects (unchanged issued_searches) (EmailReader._fetch_message uid).
Proof. unfold EmailReader._fetch_message, EmailReader.the_connection. respects_steps; observe. Qed.

Lemma fetch_no_open uid :
  respects (unchanged issued_opens) (EmailReader._fetch_message uid).
Proof. unfold EmailReader._fetch_message, EmailReader.the_connection. respects_steps; observe. Qed.

Lemma unchanged_advanced {A} (m : M (EmailReader.Sys World Conn) A) :
  respects (unchanged last_seen_uid) m -> respects advanced m.
Proof. intros Hm s. unfold advanced. rewrite (Hm s). apply uid_le_refl. Qed.

Lemma loop_no_search queue :
  respects (unchanged issued_searches) (EmailReader.read_next_loop queue).
Proof.
  induction queue as [|uid rest IH]; simpl; [apply respects_ret; exact _|].
  respects_steps; try exact IH; observe.
Qed.

Lemma loop_no_open queue :
  respects (unchanged issued_opens) (EmailReader.read_next_loop queue).
Proof.
  induction queue as [|uid rest IH]; simpl; [apply respects_ret; exact _|].
  respects_steps; try exact IH; observe.
Qed.

(** The loop only ever moves the last-seen UID forward: the assignment is
    guarded by the comparison with the current value. *)
Lemma loop_advanced queue : respects advanced (EmailReader.read_next_loop queue).
Proof.
  induction queue as [|uid rest IH]; intros s.
  - apply uid_le_refl.
  - unfold advanced. simpl.
    unfold bind at 1. simpl. unfold bind at 1. simpl.
    set (s1 := {| EmailReader.reader := EmailReader.set_unread_ids rest (EmailReader.reader s);
                  EmailReader.world := EmailReader.world s;
                  EmailReader.events := EmailReader.events s |}).
    assert (Hfetch : forall n : Z,
               uid_le (last_seen_uid s) (Some n) ->
               uid_le (last_seen_uid s)
                 (last_seen_uid
                    (fst ((EmailReader.assign (EmailReader.set_last_id (Some n));;
                           m <- EmailReader._fetch_message uid;; ret (Some m))%py s1)))).
    { intros n Hn. unfold bind at 1. simpl. unfold bind at 1.
      match goal with |- context [EmailReader._fetch_message uid ?s2] =>
        pose proof (fetch_keeps_last_seen uid s2) as Hk;
        destruct (EmailReader._fetch_message uid s2) as [s3 [m | e]]
      end; simpl in *; unfold unchanged in Hk; rewrite Hk; exact Hn. }
    unfold last_seen_uid in *.
    destruct (EmailReader._last_id (EmailReader.reader s)) as [last0|] eqn:Hlast.
    + unfold bind at 1. unfold bind at 1. unfold lift at 1.
      destruct (int uid) as [n | e] eqn:Hint; simpl.
      * destruct (last0 <? n) eqn:Hlt.
        -- unfold bind at 1. unfold lift at 1.
           apply (Hfetch n). simpl. lia.
        -- specialize (IH s1). unfold advanced, last_seen_uid in IH. simpl in IH.
           rewrite Hlast in IH. exact IH.
      * simpl. rewrite Hlast. simpl. lia.
    + exact I.
Qed.

Lemma read_next_try_advanced : respects advanced EmailReader.read_next_try.
Proof.
  unfold EmailReader.read_next_try, EmailReader.read_next_search,
    EmailReader.read_next_deliver, EmailReader.the_connection.
  respects_steps;
    try apply loop_advanced;
    try (apply unchanged_advanced; apply fetch_keeps_last_seen);
    observe.
Qed.

Lemma read_next_except_keeps_last_seen :
  respects (unchanged last_seen_uid) EmailReader.read_next_except.
Proof.
  unfold EmailReader.read_next_except.
  respects_steps;
    try apply connect_keeps_last_seen; try apply fetch_keeps_last_seen; observe.
Qed.

Lemma read_next_advanced : respects advanced EmailReader.read_next.
Proof.
  apply respects_try_except; try exact _.
  - apply read_next_try_advanced.
  - apply unchanged_advanced, read_next_except_keeps_last_seen.
Qed.

Lemma polls_app (t1 t2 : list (World -> World)) (s : EmailReader.Sys World Conn) :
  polls (t1 ++ t2) s = polls t2 (polls t1 s).
Proof. revert s. induction t1 as [|env t1 IH]; intros s; simpl; auto. Qed.

Lemma polls_advanced (ticks : list (World -> World)) (s : EmailReader.Sys World Conn) :
  advanced s (polls ticks s).
Proof.
  revert s. induction ticks as [|env rest IH]; intros s; simpl.
  - apply uid_le_refl.
  - eapply uid_le_trans; [| apply IH].
    apply (read_next_advanced (elapse env s)).
Qed.

Lemma deliver_no_search :
  respects (unchanged issued_searches) EmailReader.read_next_deliver.
Proof.
  unfold EmailReader.read_next_deliver.
  respects_steps; try apply loop_no_search; try apply fetch_no_search; observe.
Qed.

Lemma except_no_search :
  respects (unchanged issued_searches) EmailReader.read_next_except.
Proof.
  unfold EmailReader.read_next_except.
  respects_steps; try apply connect_no_search; try apply fetch_no_search; observe.
Qed.

Lemma try_no_open : respects (unchanged issued_opens) EmailReader.read_next_try.
Proof.
  unfold EmailReader.read_next_try, EmailReader.read_next_search,
    EmailReader.read_next_deliver, EmailReader.the_connection.
  respects_steps; try apply loop_no_open; try apply fetch_no_open; observe.
Qed.

(** [connect] opens one session, whatever happens next. *)
Lemma connect_opens_once (s : EmailReader.Sys World Conn) :
  issued_opens (fst (EmailReader.connect s)) =
  (issued_opens s ++ [(EmailReader._server (EmailReader.reader s),
                       EmailReader._port (EmailReader.reader s))])%list.
Proof.
  unfold EmailReader.connect, try_except, bind, EmailReader.self, EmailReader.call,
    EmailReader.assign, EmailReader.emit, modify, ret. simpl.
  destruct (IMAP4_SSL _ _ _) as [w [c | e]]; simpl.
  - destruct (imap_login _ _ _ _) as [w' [[] | e]]; simpl.
    + observe.
    + destruct (is_IMAP4_error e); observe.
  - destruct (is_IMAP4_error e); observe.
Qed.

(** [connect] swallows the protocol error: it never raises one. *)
Lemma connect_never_raises_IMAP4_error (s : EmailReader.Sys World Conn) :
  snd (EmailReader.connect s) <> Raise IMAP4_error.
Proof.
  unfold EmailReader.connect, try_except, bind, EmailReader.self, EmailReader.call,
    EmailReader.assign, EmailReader.emit, modify, ret. simpl.
  destruct (IMAP4_SSL _ _ _) as [w [c | e]]; simpl.
  - destruct (imap_login _ _ _ _) as [w' [[] | e]]; simpl; try discriminate.
    destruct e; simpl; discriminate.
  - destruct e; simpl; discriminate.
Qed.

(** With nothing newer than the last-seen UID in the queue, the loop runs
    the queue empty and delivers nothing. *)
Lemma loop_exhausts (U : Z) (queue : list bytes) (s : EmailReader.Sys World Conn) :
  last_seen_uid s = Some U ->
  pending_uids s = queue ->
  Forall (fun t => exists n, int t = Ret n /\ n <= U) queue ->
  EmailReader.read_next_loop queue s =
    ({| EmailReader.reader := EmailReader.set_unread_ids [] (EmailReader.reader s);
        EmailReader.world := EmailReader.world s;
        EmailReader.events := EmailReader.events s |}, Ret None).
Proof.
  revert s. induction queue as [|t rest IH]; intros s Hlast Hq Hall.
  - simpl. unfold ret. f_equal. destruct s as [[] w ev]; simpl in *.
    unfold pending_uids in Hq; simpl in Hq. subst. reflexivity.
  - inversion Hall as [|? ? [n [Hint Hle]] Hrest]; subst.
    simpl. unfold bind at 1. simpl. unfold bind at 1. simpl.
    unfold last_seen_uid in Hlast. rewrite Hlast.
    unfold bind at 1. unfold bind at 1. unfold lift at 1. rewrite Hint. simpl.
    destruct (U <? n) eqn:Hlt; [apply Z.ltb_lt in Hlt; lia|].
    rewrite IH; auto.
Qed.

(** ** The cursor ([EmailReader]) *)

(** C1.  Across any sequence of polls of one session, with the outside world
    changing arbitrarily between polls and whatever the IMAP client returns
    or raises (so also on polls that go through the reconnect handler), the
    recorded last-seen UID only grows in the order [uid_le]: it is never
    replaced by a smaller UID, and once set it is never reset to [None]. *)
Theorem last_seen_uid_never_rewound
    (before after : list (World -> World)) (s : EmailReader.Sys World Conn) :
  uid_le (last_seen_uid (polls before s))
         (last_seen_uid (polls (before ++ after) s)).
Proof.
  rewrite polls_app. apply polls_advanced.
Qed.

(** The state in which the search of [read_next] is issued: the folder has
    been selected and the world has moved to [w]. *)
Lemma read_next_try_selected (s : EmailReader.Sys World Conn) (c : Conn) (w : World) :
  EmailReader.connection (EmailReader.reader s) = Some c ->
  imap_select c (EmailReader._folder (EmailReader.reader s)) (EmailReader.world s)
    = (w, Ret tt) ->
  EmailReader.read_next_try s =
    (EmailReader.read_next_search ;; EmailReader.read_next_deliver)%py
      {| EmailReader.reader := EmailReader.reader s;
         EmailReader.world := w;
         EmailReader.events :=
           (EmailReader.events s ++ [EvSelect (EmailReader._folder (EmailReader.reader s))])%list |}.
Proof.
  intros Hc Hsel.
  unfold EmailReader.read_next_try, EmailReader.the_connection.
  unfold bind at 1. unfold bind at 1. simpl. rewrite Hc. simpl.
  unfold bind at 1. simpl. unfold bind at 1.
  unfold EmailReader.call at 1. rewrite Hsel. reflexivity.
Qed.

(** C8 (amended).  On a poll that finds the pending queue empty: when a
    connection is stored and the selection of the folder returns, exactly one
    search is issued during the whole poll, and its criterion depends on the
    last-seen UID alone: [SINCE <today>] when no UID has been seen, [UID n:*]
    with [n] the last-seen UID itself (inclusive lower bound) otherwise; when
    the selection raises, or no connection is stored, no search is issued. *)
Theorem one_search_selected_by_last_seen_uid (s : EmailReader.Sys World Conn) :
  pending_uids s = [] ->
  (forall (c : Conn) (w : World),
      EmailReader.connection (EmailReader.reader s) = Some c ->
      imap_select c (EmailReader._folder (EmailReader.reader s)) (EmailReader.world s)
        = (w, Ret tt) ->
      issued_searches (fst (EmailReader.read_next s)) =
        (issued_searches s ++
         [match last_seen_uid s with
          | None => "SINCE " +:+ strftime_d_b_Y (date_today w)
          | Some n => "UID " +:+ str_int n +:+ ":*"
          end])%list)
  /\ (forall (c : Conn) (w : World) (e : exn),
        EmailReader.connection (EmailReader.reader s) = Some c ->
        imap_select c (EmailReader._folder (EmailReader.reader s)) (EmailReader.world s)
          = (w, Raise e) ->
        issued_searches (fst (EmailReader.read_next s)) = issued_searches s)
  /\ (EmailReader.connection (EmailReader.reader s) = None ->
      issued_searches (fst (EmailReader.read_next s)) = issued_searches s).
Proof.
  intros Hq. split; [|split].
  - intros c w Hc Hsel.
    unfold EmailReader.read_next, try_except.
    rewrite (read_next_try_selected s c w Hc Hsel).
    set (s1 := {| EmailReader.reader := EmailReader.reader s;
                  EmailReader.world := w; EmailReader.events := _ |}).
    set (crit := match last_seen_uid s with
                 | None => _ | Some n => _ end).
    assert (Hsearch : issued_searches (fst (EmailReader.read_next_search s1)) =
                      (issued_searches s ++ [crit])%list).
    { unfold EmailReader.read_next_search, EmailReader.the_connection.
      unfold bind at 1. simpl. unfold pending_uids in Hq. rewrite Hq.
      unfold bind at 1. simpl. unfold bind at 1. unfold bind at 1. simpl.
      rewrite Hc. simpl. unfold bind at 1. unfold EmailReader.call at 1. simpl.
      fold crit.
      destruct (imap_uid_search c _ w) as [w2 [data | e]]; simpl; [|observe].
      destruct data as [| [d|] data']; observe. }
    unfold bind at 1.
    destruct (EmailReader.read_next_search s1) as [s2 [[] | e]] eqn:Hs2; simpl in Hsearch.
    + pose proof (deliver_no_search s2) as Hd.
      destruct (EmailReader.read_next_deliver s2) as [s3 [m | e]]; simpl in Hd;
        unfold unchanged in Hd.
      * simpl. congruence.
      * destruct (is_IMAP4_error e); simpl; [|congruence].
        rewrite (except_no_search s3). congruence.
    + destruct (is_IMAP4_error e); simpl; [|congruence].
      rewrite (except_no_search s2). congruence.
  - intros c w e Hc Hsel.
    assert (Htry : issued_searches (fst (EmailReader.read_next_try s)) = issued_searches s
                   /\ snd (EmailReader.read_next_try s) = Raise e).
    { cbv [EmailReader.read_next_try EmailReader.the_connection EmailReader.self
           EmailReader.call bind ret raise].
      rewrite Hc, Hsel. split; [|reflexivity].
      unfold issued_searches. simpl. rewrite searches_app. simpl. apply app_nil_r. }
    destruct Htry as [Hsearches Hraise].
    unfold EmailReader.read_next, try_except.
    destruct (EmailReader.read_next_try s) as [s1 r]; simpl in *. subst r.
    destruct (is_IMAP4_error e); simpl; [|exact Hsearches].
    rewrite (except_no_search s1). exact Hsearches.
  - intros Hc.
    unfold EmailReader.read_next, try_except.
    cbv [EmailReader.read_next_try EmailReader.the_connection EmailReader.self
         bind ret raise].
    rewrite Hc. reflexivity.
Qed.

(** C2 (amended).  When the last-seen UID is [U], the queue is empty and the
    search returns no UID above [U], the poll re-fetches UID [U] and returns
    what that fetch yields: the message when the server still returns data
    for [U], and [None] when the response carries no data.  The last-seen UID
    stays [U]. *)
Theorem redelivers_what_the_refetch_yields
    (s : EmailReader.Sys World Conn) (c : Conn) (U : Z) (w1 w2 w3 : World)
    (d : bytes) (data : list (option bytes))
    (message_data : option (list FetchItem)) :
  EmailReader.connection (EmailReader.reader s) = Some c ->
  last_seen_uid s = Some U ->
  pending_uids s = [] ->
  imap_select c (EmailReader._folder (EmailReader.reader s)) (EmailReader.world s)
    = (w1, Ret tt) ->
  imap_uid_search c ("UID " +:+ str_int U +:+ ":*") w1 = (w2, Ret (Some d :: data)) ->
  Forall (fun t => exists n, int t = Ret n /\ n <= U) (split d) ->
  imap_uid_fetch c (str_int U) w2 = (w3, Ret message_data) ->
  snd (EmailReader.read_next s) = EmailReader.fetched_message message_data
  /\ last_seen_uid (fst (EmailReader.read_next s)) = Some U
  /\ EmailReader.events (fst (EmailReader.read_next s)) =
       (EmailReader.events s ++
        [EvSelect (EmailReader._folder (EmailReader.reader s));
         EvSearch ("UID " +:+ str_int U +:+ ":*");
         EvFetch (str_int U)])%list
  /\ (forall envelope raw rest,
         message_data = Some (FetchTuple envelope raw :: rest) ->
         snd (EmailReader.read_next s) = Ret (Some (message_from_bytes raw)))
  /\ (message_data = None \/ (exists rest, message_data = Some (FetchNone :: rest)) ->
      snd (EmailReader.read_next s) = Ret None).
Proof.
  intros Hc Hlast Hq Hsel Hsearch Hall Hfetch.
  assert (Hrun : EmailReader.read_next s =
    ({| EmailReader.reader := EmailReader.set_unread_ids [] (EmailReader.reader s);
        EmailReader.world := w3;
        EmailReader.events :=
          (((EmailReader.events s ++ [EvSelect (EmailReader._folder (EmailReader.reader s))])
            ++ [EvSearch ("UID " +:+ str_int U +:+ ":*")])
           ++ [EvFetch (str_int U)])%list |},
     EmailReader.fetched_message message_data)).
  { unfold EmailReader.read_next, try_except.
    rewrite (read_next_try_selected s c w1 Hc Hsel).
    unfold bind at 1.
    unfold EmailReader.read_next_search, EmailReader.the_connection.
    unfold bind at 1. simpl. unfold pending_uids in Hq. rewrite Hq.
    unfold bind at 1. simpl. unfold bind at 1. unfold bind at 1. simpl.
    rewrite Hc. simpl. unfold bind at 1. unfold EmailReader.call at 1. simpl.
    unfold last_seen_uid in Hlast. rewrite Hlast. simpl.
    rewrite Hsearch. simpl.
    unfold EmailReader.read_next_deliver.
    unfold bind at 1. simpl. unfold bind at 1.
    rewrite (loop_exhausts U (split d)); auto.
    simpl. unfold bind at 1. simpl. rewrite Hlast. simpl.
    unfold EmailReader._fetch_message, EmailReader.the_connection.
    unfold bind at 1. unfold bind at 1. simpl. rewrite Hc. simpl.
    unfold bind at 1. unfold EmailReader.call at 1. simpl. rewrite Hfetch.
    unfold lift.
    destruct message_data as [[| [| ? ? | b] ?] |]; simpl; try reflexivity.
    destruct (String.length b <? 2)%nat; reflexivity. }
  rewrite Hrun. simpl. repeat split.
  - exact Hlast.
  - rewrite <- !app_assoc. reflexivity.
  - intros envelope raw rest ->. reflexivity.
  - intros [-> | [rest ->]]; reflexivity.
Qed.

(** IMAP protocol errors never leave [read_next]: the outer handler catches
    those of the poll proper, the inner one those of the re-fetch, and
    [connect] catches its own. *)
Lemma read_next_never_raises_IMAP4_error (s : EmailReader.Sys World Conn) :
  snd (EmailReader.read_next s) <> Raise IMAP4_error.
Proof.
  unfold EmailReader.read_next, try_except.
  destruct (EmailReader.read_next_try s) as [s1 [m | e]]; simpl; [discriminate|].
  destruct e; simpl; try discriminate.
  unfold EmailReader.read_next_except.
  unfold bind at 1. simpl. unfold bind at 1. simpl. unfold try_except.
  match goal with |- context [match ?m ?st with _ => _ end] =>
    destruct (m st) as [s2 [r | e]] end; simpl; [discriminate|].
  destruct e; simpl; discriminate.
Qed.

Ltac opens_norm :=
  unfold unchanged, issued_opens in *; simpl in *;
  rewrite ?opens_app in *; simpl in *; rewrite ?app_nil_r in *.

(** The handler of [read_next] opens exactly one session. *)
Lemma except_opens_once (s1 : EmailReader.Sys World Conn) :
  issued_opens (fst (EmailReader.read_next_except s1)) =
    (issued_opens s1 ++ [(EmailReader._server (EmailReader.reader s1),
                          EmailReader._port (EmailReader.reader s1))])%list.
Proof.
  unfold EmailReader.read_next_except.
  unfold bind at 1. simpl. unfold bind at 1. simpl. unfold try_except.
  unfold bind at 1.
  match goal with |- context [EmailReader.connect ?st] =>
    pose proof (connect_opens_once st) as Hc;
    destruct (EmailReader.connect st) as [s2 [b | e]]
  end.
  - assert (Hrest : respects (unchanged issued_opens)
              (EmailReader.emit (EvLogInfo
                  ("Reconnect to " +:+ EmailReader._server (EmailReader.reader s1)
                     +:+ " succeeded, trying last message")) ;;
               me <- EmailReader.self ;;
               match EmailReader._last_id me with
               | Some n => EmailReader._fetch_message (str_int n)
               | None => ret None
               end)%py).
    { respects_steps; try apply fetch_no_open; observe. }
    specialize (Hrest s2).
    match type of Hrest with context [fst (?m s2)] =>
      destruct (m s2) as [s3 [r | e]] end;
      [| destruct (is_IMAP4_error e)]; opens_norm; congruence.
  - destruct (is_IMAP4_error e); opens_norm; congruence.
Qed.

(** C3 (amended).  When the select, search or fetch of a poll raises an IMAP
    protocol error, [connect] is run exactly once (one session is opened) and
    no further search is issued; no IMAP protocol error reaches the caller;
    and when the reconnect succeeds (the session opens and the login is
    accepted) the poll returns [None] if no UID has been seen, and otherwise
    what re-fetching the last-seen UID yields: the message, or [None] when
    the response carries no data or the fetch itself raises an IMAP protocol
    error. *)
Theorem protocol_error_reconnects_once
    (s s1 : EmailReader.Sys World Conn) :
  EmailReader.read_next_try s = (s1, Raise IMAP4_error) ->
  issued_opens (fst (EmailReader.read_next s)) =
    (issued_opens s ++ [(EmailReader._server (EmailReader.reader s1),
                         EmailReader._port (EmailReader.reader s1))])%list
  /\ issued_searches (fst (EmailReader.read_next s)) = issued_searches s1
  /\ snd (EmailReader.read_next s) <> Raise IMAP4_error
  /\ (forall (c' : Conn) (w2 w3 : World),
        IMAP4_SSL (EmailReader._server (EmailReader.reader s1))
                  (EmailReader._port (EmailReader.reader s1))
                  (EmailReader.world s1) = (w2, Ret c') ->
        imap_login c' (EmailReader._user (EmailReader.reader s1))
                   (EmailReader._password (EmailReader.reader s1)) w2 = (w3, Ret tt) ->
        match last_seen_uid s1 with
        | None => snd (EmailReader.read_next s) = Ret None
        | Some u =>
            forall (w4 : World) (r : result (option (list FetchItem))),
              imap_uid_fetch c' (str_int u) w3 = (w4, r) ->
              snd (EmailReader.read_next s) =
                match r with
                | Ret message_data => EmailReader.fetched_message message_data
                | Raise e => if is_IMAP4_error e then Ret None else Raise e
                end
        end).
Proof.
  intros Htry.
  assert (Hrun : EmailReader.read_next s = EmailReader.read_next_except s1).
  { unfold EmailReader.read_next, try_except. rewrite Htry. reflexivity. }
  pose proof (try_no_open s) as Hopen0. rewrite Htry in Hopen0.
  simpl in Hopen0. unfold unchanged in Hopen0.
  split; [| split; [| split]].
  - rewrite Hrun, (except_opens_once s1). congruence.
  - rewrite Hrun. apply except_no_search.
  - apply read_next_never_raises_IMAP4_error.
  - intros c' w2 w3 Hssl Hlogin. rewrite Hrun.
    unfold last_seen_uid.
    destruct (EmailReader._last_id (EmailReader.reader s1)) as [u|] eqn:Hlast.
    + intros w4 r Hfetch.
      cbv [EmailReader.read_next_except EmailReader.connect EmailReader._fetch_message
           EmailReader.the_connection EmailReader.self EmailReader.emit
           EmailReader.call EmailReader.assign bind try_except modify ret raise lift].
      simpl. rewrite Hssl. simpl. rewrite Hlogin. simpl. rewrite Hlast. simpl.
      rewrite Hfetch. destruct r as [md | e]; simpl.
      * destruct md as [[| [| ? ? | b] ?] |]; simpl; try reflexivity.
        destruct (String.length b <? 2)%nat; reflexivity.
      * destruct (is_IMAP4_error e); reflexivity.
    + cbv [EmailReader.read_next_except EmailReader.connect EmailReader.self
           EmailReader.emit EmailReader.call EmailReader.assign bind try_except
           modify ret raise lift].
      simpl. rewrite Hssl. simpl. rewrite Hlogin. simpl. rewrite Hlast. reflexivity.
Qed.

(** C7 (amended).  When opening the session or logging in raises the IMAP
    protocol error, [connect] returns [False] and raises nothing; an
    exception of any other class raised there is raised by [connect] to its
    caller, and by [setup_platform] in turn; and when [connect] returns
    [False] during set-up, [setup_platform] adds no entity. *)
Theorem connect_false_on_protocol_error_skips_entity :
  (forall (s : EmailReader.Sys World Conn),
      (exists w, IMAP4_SSL (EmailReader._server (EmailReader.reader s))
                           (EmailReader._port (EmailReader.reader s))
                           (EmailReader.world s) = (w, Raise IMAP4_error))
      \/ (exists w c w',
            IMAP4_SSL (EmailReader._server (EmailReader.reader s))
                      (EmailReader._port (EmailReader.reader s))
                      (EmailReader.world s) = (w, Ret c)
            /\ imap_login c (EmailReader._user (EmailReader.reader s))
                          (EmailReader._password (EmailReader.reader s)) w
               = (w', Raise IMAP4_error)) ->
      snd (EmailReader.connect s) = Ret false)
  /\ (forall (Template : Type) (engine : TemplateEngine Template)
             (config : Config Template) (w : World),
        snd (EmailReader.connect
               {| EmailReader.reader :=
                    EmailReader.__init__ (CONF_USERNAME config) (CONF_PASSWORD config)
                      (CONF_SERVER config) (CONF_PORT config) (CONF_FOLDER config);
                  EmailReader.world := w;
                  EmailReader.events := [] |}) = Ret false ->
        snd (setup_platform config w) = Ret [])
  /\ (forall (s : EmailReader.Sys World Conn) (e : exn),
        is_IMAP4_error e = false ->
        (exists w, IMAP4_SSL (EmailReader._server (EmailReader.reader s))
                             (EmailReader._port (EmailReader.reader s))
                             (EmailReader.world s) = (w, Raise e))
        \/ (exists w c w',
              IMAP4_SSL (EmailReader._server (EmailReader.reader s))
                        (EmailReader._port (EmailReader.reader s))
                        (EmailReader.world s) = (w, Ret c)
              /\ imap_login c (EmailReader._user (EmailReader.reader s))
                            (EmailReader._password (EmailReader.reader s)) w
                 = (w', Raise e)) ->
        snd (EmailReader.connect s) = Raise e)
  /\ (forall (Template : Type) (config : Config Template) (w : World) (e : exn),
        snd (EmailReader.connect
               {| EmailReader.reader :=
                    EmailReader.__init__ (CONF_USERNAME config) (CONF_PASSWORD config)
                      (CONF_SERVER config) (CONF_PORT config) (CONF_FOLDER config);
                  EmailReader.world := w;
                  EmailReader.events := [] |}) = Raise e ->
        snd (setup_platform config w) = Raise e).
Proof.
  split; [|split; [|split]].
  - intros s Hfail.
    unfold EmailReader.connect, try_except.
    unfold bind at 1. simpl. unfold bind at 1. unfold EmailReader.call at 1.
    destruct Hfail as [[w Hssl] | [w [c [w' [Hssl Hlogin]]]]]; rewrite Hssl; simpl.
    + reflexivity.
    + unfold bind at 1. simpl. unfold bind at 1. unfold EmailReader.call at 1. simpl.
      rewrite Hlogin. reflexivity.
  - intros Template engine config w Hconn.
    unfold setup_platform, EmailContentSensor.__init__. unfold bind at 1.
    destruct (EmailReader.connect _) as [s1 [b | e]]; simpl in *.
    + inversion Hconn; subst. reflexivity.
    + discriminate.
  - intros s e Hother Hfail.
    unfold EmailReader.connect, try_except.
    unfold bind at 1. simpl. unfold bind at 1. unfold EmailReader.call at 1.
    destruct Hfail as [[w Hssl] | [w [c [w' [Hssl Hlogin]]]]]; rewrite Hssl; simpl.
    + rewrite Hother. reflexivity.
    + unfold bind at 1. simpl. unfold bind at 1. unfold EmailReader.call at 1. simpl.
      rewrite Hlogin. simpl. rewrite Hother. reflexivity.
  - intros Template config w e Hconn.
    unfold setup_platform, EmailContentSensor.__init__. unfold bind at 1.
    destruct (EmailReader.connect _) as [s1 [b | e']]; simpl in *.
    + discriminate.
    + injection Hconn as ->. reflexivity.
Qed.

End ReaderFacts.

(** ** The extractor ([EmailContentSensor]) *)

(** [is_base64] is bound in the class body only. *)
Lemma is_base64_bound_in_class_only :
  existsb (String.eqb "is_base64") EmailContentSensor_names = true
  /\ load_global "is_base64" = Raise (NameError "is_base64").
Proof. split; reflexivity. Qed.

(** As soon as the walk reaches a [text/plain] part, the call of the bare
    name [is_base64] raises; the parts before it cannot. *)
Lemma get_msg_text_loop_text_plain (parts : list Message) (t h u : PyVal) :
  existsb is_text_plain parts = true ->
  EmailContentSensor.get_msg_text_loop parts t h u = Raise (NameError "is_base64").
Proof.
  revert t h u.
  induction parts as [|p rest IH]; intros t h u Hex; [discriminate|].
  simpl in *. unfold is_text_plain in Hex at 1.
  destruct (String.eqb (get_content_type p) CONTENT_TYPE_TEXT_PLAIN); [reflexivity|].
  simpl in Hex.
  destruct (String.eqb _ "text/html"); [apply IH; assumption|].
  destruct (_ && _)%bool; apply IH; assumption.
Qed.

Lemma get_msg_text_text_plain (email_message : Message) :
  existsb is_text_plain (walk email_message) = true ->
  EmailContentSensor.get_msg_text email_message = Raise (NameError "is_base64").
Proof.
  intros Hex. unfold EmailContentSensor.get_msg_text.
  rewrite get_msg_text_loop_text_plain by assumption. reflexivity.
Qed.

(** Without a [text/plain] part the loop keeps, per category, the first
    payload that is not [None]. *)
Lemma get_msg_text_loop_without_text_plain (parts : list Message) (t h u : PyVal) :
  existsb is_text_plain parts = false ->
  EmailContentSensor.get_msg_text_loop parts t h u =
    Ret (t,
         if is_None h then first_payload is_text_html parts else h,
         if is_None u then first_payload is_other_text parts else u).
Proof.
  revert t h u.
  induction parts as [|p rest IH]; intros t h u Hno.
  - simpl. destruct h, u; reflexivity.
  - simpl in Hno. apply orb_false_iff in Hno as [Hp Hrest].
    cbn [EmailContentSensor.get_msg_text_loop first_payload].
    change (String.eqb (get_content_type p) CONTENT_TYPE_TEXT_PLAIN) with (is_text_plain p).
    change (String.eqb (get_content_type p) "text/html") with (is_text_html p).
    assert (Hother : is_other_text p =
                     (negb (is_text_html p) && String.prefix "text" (get_content_type p))%bool).
    { unfold is_other_text. rewrite Hp. reflexivity. }
    rewrite Hp, Hother.
    destruct (is_text_html p); simpl.
    + rewrite IH by assumption.
      destruct h; simpl; try reflexivity.
      destruct (is_None (get_payload p)); reflexivity.
    + destruct (String.prefix "text" (get_content_type p)); simpl.
      * destruct u; simpl; rewrite IH by assumption; simpl; try reflexivity.
        destruct (is_None (get_payload p)); reflexivity.
      * rewrite IH by assumption. reflexivity.
Qed.

(** For a message without [text/plain] part the precedence of the
    specification holds: first [text/html] payload, else first payload of
    another [text] type, else the message's own payload. *)
Lemma get_msg_text_without_text_plain (email_message : Message) :
  existsb is_text_plain (walk email_message) = false ->
  EmailContentSensor.get_msg_text email_message =
    Ret (first_not_None
           [first_payload is_text_html (walk email_message);
            first_payload is_other_text (walk email_message)]
           (get_payload email_message)).
Proof.
  intros Hno. unfold EmailContentSensor.get_msg_text.
  rewrite get_msg_text_loop_without_text_plain by assumption. simpl.
  destruct (is_None (first_payload is_text_html _)); simpl; [|reflexivity].
  destruct (is_None (first_payload is_other_text _)); reflexivity.
Qed.

(** C4.  The [text/plain] message whose content is [SGVsbG8=]: the class
    methods recognise the content as base64 and decode it to [Hello], but
    [get_msg_text] calls them as bare names and raises [NameError] before
    either runs. *)
Theorem get_msg_text_base64_part_raises_NameError :
  EmailContentSensor.get_msg_text (MkMessage [] "text/plain" (VStr "SGVsbG8="))
    = Raise (NameError "is_base64")
  /\ EmailContentSensor.is_base64 (VStr "SGVsbG8=") = true
  /\ EmailContentSensor.get_plain_text (VStr "SGVsbG8=") = "Hello".
Proof. repeat split; reflexivity. Qed.

(** C5.  The multipart message with a [text/plain] part [Hello world] and a
    [text/html] part: [get_msg_text] raises [NameError] at the [text/plain]
    part instead of returning [Hello world]. *)
Theorem get_msg_text_plain_and_html_raises_NameError :
  EmailContentSensor.get_msg_text
    (MkMessage [] "multipart/alternative"
       (VParts [MkMessage [] "text/plain" (VStr "Hello world");
                MkMessage [] "text/html" (VStr "<p>Hello world</p>")]))
    = Raise (NameError "is_base64")
  /\ EmailContentSensor.is_base64 (VStr "Hello world") = false.
Proof. split; reflexivity. Qed.

Section SensorFacts.
Context {World Conn Template : Type}
        {client : ImapClient World Conn} {codec : EmailCodec}
        {engine : TemplateEngine Template}.

Lemma existsb_eqb_In (x : string) (l : list string) :
  existsb (String.eqb x) l = true <-> In x l.
Proof.
  rewrite existsb_exists. split.
  - intros [y [Hin Heq]]. apply String.eqb_eq in Heq. subst. exact Hin.
  - intros Hin. exists x. split; [exact Hin | apply String.eqb_refl].
Qed.

(** C6.  For a sensor configured with the allow list [allowed_senders],
    [sender_allowed] is true exactly when the address part of the [From]
    header equals some entry of the list, both sides compared in upper case
    (equality of whole strings, not containment); so [From: Jane Doe
    <jane@example.com>] passes the list [JANE@EXAMPLE.COM]. *)
Theorem sender_allowed_iff_address_equals_entry
    (s s' : EmailReader.Sys World Conn) (name : string)
    (allowed_senders : list string) (value_template : option Template)
    (me : EmailContentSensor.Self Template) :
  EmailContentSensor.__init__ name allowed_senders value_template s = (s', Ret me) ->
  (forall email_message,
      EmailContentSensor.sender_allowed me email_message = true <->
      exists entry, In entry allowed_senders
                    /\ upper (EmailContentSensor.get_msg_sender email_message) = upper entry)
  /\ (forall email_message,
        allowed_senders = ["JANE@EXAMPLE.COM"] ->
        getitem email_message "From" = Some "Jane Doe <jane@example.com>" ->
        EmailContentSensor.sender_allowed me email_message = true).
Proof.
  intros Hinit.
  assert (Hlist : EmailContentSensor._allowed_senders me = map upper allowed_senders).
  { unfold EmailContentSensor.__init__ in Hinit. unfold bind in Hinit.
    destruct (EmailReader.connect s) as [s1 [b | e]]; [|discriminate].
    unfold ret in Hinit. inversion Hinit; subst. reflexivity. }
  assert (Hiff : forall email_message,
      EmailContentSensor.sender_allowed me email_message = true <->
      exists entry, In entry allowed_senders
                    /\ upper (EmailContentSensor.get_msg_sender email_message) = upper entry).
  { intros email_message. unfold EmailContentSensor.sender_allowed.
    rewrite Hlist, existsb_eqb_In, in_map_iff. split.
    - intros [entry [Heq Hin]]. exists entry. split; [exact Hin | symmetry; exact Heq].
    - intros [entry [Hin Heq]]. exists entry. split; [symmetry; exact Heq | exact Hin]. }
  split; [exact Hiff|].
  intros email_message -> Hfrom. apply Hiff.
  exists "JANE@EXAMPLE.COM". split; [left; reflexivity|].
  unfold EmailContentSensor.get_msg_sender. rewrite Hfrom. reflexivity.
Qed.

(** C9.  When [read_next] returns a message whose sender is not allowed,
    [update] changes nothing in the sensor: [_message] and
    [_state_attributes] keep the values they had (they are not emptied), and
    the call returns normally. *)
Theorem update_disallowed_sender_keeps_state
    (me : EmailContentSensor.Self Template) (s s' : EmailReader.Sys World Conn)
    (email_message : Message) :
  EmailReader.read_next s = (s', Ret (Some email_message)) ->
  EmailContentSensor.sender_allowed me email_message = false ->
  EmailContentSensor.update (me, s) = ((me, s'), Ret tt).
Proof.
  intros Hread Hdeny.
  unfold EmailContentSensor.update. unfold bind at 1. unfold zoom.
  rewrite Hread. unfold bind at 1. simpl. rewrite Hdeny. reflexivity.
Qed.

(** The published value is cleared by the ticks on which [read_next] returns
    [None], and by no other. *)
Lemma update_clears_only_on_None
    (me : EmailContentSensor.Self Template) (s : EmailReader.Sys World Conn) :
  EmailContentSensor._message (fst (fst (EmailContentSensor.update (me, s)))) = None ->
  EmailContentSensor._message me = None \/ snd (EmailReader.read_next s) = Ret None.
Proof.
  unfold EmailContentSensor.update. unfold bind at 1. unfold zoom.
  destruct (EmailReader.read_next s) as [s' [[email_message|] | e]]; simpl; auto.
  unfold bind at 1. simpl.
  destruct (EmailContentSensor.sender_allowed me email_message); simpl; auto.
  unfold bind at 1. unfold lift at 1.
  destruct (EmailContentSensor.get_msg_subject email_message) as [subject | e]; simpl; auto.
  unfold bind at 1.
  destruct (EmailContentSensor._value_template me) as [t|].
  - unfold lift at 1.
    destruct (EmailContentSensor.render_template t email_message) as [text | e]; simpl; auto.
    unfold bind at 1. simpl. unfold bind at 1. unfold lift at 1.
    destruct (EmailContentSensor.message_fields email_message); simpl; discriminate.
  - unfold ret at 1. unfold bind at 1. simpl. unfold bind at 1. unfold lift at 1.
    destruct (EmailContentSensor.message_fields email_message); simpl; discriminate.
Qed.

(** C10.  For a message without [From] header [get_msg_sender] returns the
    empty string (nothing is raised), and [sender_allowed] is false for every
    sensor whose allow list has no empty entry. *)
Theorem missing_From_gives_empty_sender (email_message : Message) :
  getitem email_message "From" = None ->
  EmailContentSensor.get_msg_sender email_message = ""
  /\ (forall me : EmailContentSensor.Self Template,
        ~ In "" (EmailContentSensor._allowed_senders me) ->
        EmailContentSensor.sender_allowed me email_message = false).
Proof.
  intros Hfrom.
  assert (Hsender : EmailContentSensor.get_msg_sender email_message = "").
  { unfold EmailContentSensor.get_msg_sender. rewrite Hfrom. reflexivity. }
  split; [exact Hsender|].
  intros me Hno. unfold EmailContentSensor.sender_allowed. rewrite Hsender.
  destruct (existsb _ _) eqn:Hex; [|reflexivity].
  apply existsb_eqb_In in Hex. contradiction.
Qed.

End SensorFacts.

(** ** Runs in the simulated environment *)

Section Runs.
Import Simulated.

(** A run of three polls: the second loses the connection and goes through
    the reconnect handler; the last-seen UID stays at 7. *)
Example last_seen_uid_kept_across_reconnect :
  let s := session None []
             [RSelect (Ret tt); RSearch (Ret [Some "7"]);
              RFetch (Ret (Some [FetchTuple "" mail_from_jane]));
              RSelect (Raise IMAP4_error); ROpen (Ret 1%nat); RLogin (Ret tt);
              RFetch (Ret (Some [FetchTuple "" mail_from_jane]))] in
  map (fun n => last_seen_uid (polls (repeat (fun w => w) n) s)) [0; 1; 2]%nat
  = [None; Some 7; Some 7].
Proof. reflexivity. Qed.

(** C2, counterexample.  The last-seen UID is 5, the search returns no UID
    above 5 and nothing raises, but the server has no data left for UID 5:
    the poll returns [None]. *)
Lemma no_redelivery_when_refetch_is_empty :
  let s := session (Some 5) []
             [RSelect (Ret tt); RSearch (Ret [Some "5"]);
              RFetch (Ret (Some [FetchNone]))] in
  last_seen_uid s = Some 5
  /\ map int (split "5") = [Ret 5]
  /\ snd (EmailReader.read_next s) = Ret None
  /\ EmailReader.events (fst (EmailReader.read_next s))
     = [EvSelect "INBOX"; EvSearch "UID 5:*"; EvFetch "5"].
Proof. repeat split; reflexivity. Qed.

Lemma redelivers_what_the_refetch_yields_witness :
  let s := session (Some 5) []
             [RSelect (Ret tt); RSearch (Ret [Some "4 5"]);
              RFetch (Ret (Some [FetchTuple "" mail_from_jane]))] in
  Forall (fun t => exists n, int t = Ret n /\ n <= 5) (split "4 5")
  /\ snd (EmailReader.read_next s) = Ret (Some (parse_message mail_from_jane))
  /\ last_seen_uid (fst (EmailReader.read_next s)) = Some 5.
Proof.
  intros s.
  assert (Hall : Forall (fun t => exists n, int t = Ret n /\ n <= 5) (split "4 5")).
  { repeat constructor; [exists 4 | exists 5]; split; (reflexivity || lia). }
  split; [exact Hall|].
  destruct (redelivers_what_the_refetch_yields (client := client) (codec := codec) s 0%nat 5
              [RSearch (Ret [Some "4 5"]); RFetch (Ret (Some [FetchTuple "" mail_from_jane]))]
              [RFetch (Ret (Some [FetchTuple "" mail_from_jane]))] []
              "4 5" [] (Some [FetchTuple "" mail_from_jane])
              eq_refl eq_refl eq_refl eq_refl eq_refl Hall eq_refl)
    as (Hres & Hlast & _).
  split; [exact Hres | exact Hlast].
Defined.

(** C3, counterexample.  Three polls on which the select raises the IMAP
    protocol error, with last-seen UID 5:
    - the reconnect succeeds but the server has no data for UID 5: the poll
      returns [None], not a message;
    - the reconnect fails ([IMAP4_SSL] raises the protocol error, which
      [connect] turns into [False]) but the old connection still answers the
      fetch: the poll returns the message, not [None];
    - the reconnect fails with an exception of another class: it is raised
      to the caller. *)
Lemma reconnect_outcomes_differ :
  snd (EmailReader.read_next
         (session (Some 5) []
            [RSelect (Raise IMAP4_error); ROpen (Ret 1%nat); RLogin (Ret tt);
             RFetch (Ret (Some [FetchNone]))])) = Ret None
  /\ snd (EmailReader.read_next
            (session (Some 5) []
               [RSelect (Raise IMAP4_error); ROpen (Raise IMAP4_error);
                RFetch (Ret (Some [FetchTuple "" mail_from_jane]))]))
     = Ret (Some (parse_message mail_from_jane))
  /\ snd (EmailReader.read_next
            (session (Some 5) [] [RSelect (Raise IMAP4_error); ROpen (Raise OSError)]))
     = Raise OSError.
Proof. repeat split; reflexivity. Qed.

Lemma protocol_error_reconnects_once_witness :
  let s := session (Some 5) []
             [RSelect (Raise IMAP4_error); ROpen (Ret 1%nat); RLogin (Ret tt);
              RFetch (Ret (Some [FetchTuple "" mail_from_jane]))] in
  snd (EmailReader.read_next_try s) = Raise IMAP4_error
  /\ issued_opens (fst (EmailReader.read_next s)) = [("mail.example.org", DEFAULT_PORT)]
  /\ issued_searches (fst (EmailReader.read_next s)) = []
  /\ snd (EmailReader.read_next s) = Ret (Some (parse_message mail_from_jane)).
Proof.
  intros s.
  assert (Htry : EmailReader.read_next_try s
                 = (fst (EmailReader.read_next_try s), Raise IMAP4_error))
    by reflexivity.
  destruct (protocol_error_reconnects_once (client := client) (codec := codec)
              s (fst (EmailReader.read_next_try s)) Htry)
    as (Hopens & Hsearches & _ & Hresult).
  split; [reflexivity|].
  split; [exact Hopens|].
  split; [exact Hsearches|].
  exact (Hresult 1%nat
           [RLogin (Ret tt); RFetch (Ret (Some [FetchTuple "" mail_from_jane]))]
           [RFetch (Ret (Some [FetchTuple "" mail_from_jane]))]
           eq_refl eq_refl [] _ eq_refl).
Defined.

(** C7, counterexample.  The network is unreachable: [IMAP4_SSL] raises
    [OSError], which is not an IMAP protocol error; [connect] raises it, and
    so does [setup_platform]. *)
Lemma connect_raises_on_network_failure :
  snd (EmailReader.connect (session None [] [ROpen (Raise OSError)])) = Raise OSError
  /\ snd (EmailReader.connect (session None [] [ROpen (Raise OSError)])) <> Ret false
  /\ snd (setup_platform (config ["jane@example.com"]) [ROpen (Raise OSError)])
     = Raise OSError.
Proof. repeat split; try reflexivity. discriminate. Qed.

Lemma connect_false_on_protocol_error_skips_entity_witness :
  snd (EmailReader.connect
         (session None [] [ROpen (Ret 1%nat); RLogin (Raise IMAP4_error)])) = Ret false
  /\ snd (setup_platform (config ["jane@example.com"])
            [ROpen (Ret 1%nat); RLogin (Raise IMAP4_error)]) = Ret []
  /\ snd (EmailReader.connect
            (session None [] [ROpen (Ret 1%nat); RLogin (Raise OSError)])) = Raise OSError
  /\ snd (setup_platform (config ["jane@example.com"]) [ROpen (Raise OSError)])
     = Raise OSError.
Proof.
  destruct (connect_false_on_protocol_error_skips_entity (client := client))
    as (Hconnect & Hsetup & Hraise & Hsetup_raise).
  split; [|split; [|split]].
  - apply Hconnect. right.
    exists [RLogin (Raise IMAP4_error)], 1%nat, []. split; reflexivity.
  - apply (Hsetup unit templates). reflexivity.
  - apply Hraise; [reflexivity|]. right.
    exists [RLogin (Raise OSError)], 1%nat, []. split; reflexivity.
  - apply (Hsetup_raise unit). reflexivity.
Defined.

(** C8, counterexample.  The queue is empty, but the selection of the folder
    raises the IMAP protocol error: the poll goes through the reconnect
    handler and issues no search at all. *)
Lemma no_search_when_select_raises :
  let s := session None []
             [RSelect (Raise IMAP4_error); ROpen (Ret 1%nat); RLogin (Ret tt)] in
  pending_uids s = []
  /\ issued_searches (fst (EmailReader.read_next s)) = []
  /\ EmailReader.events (fst (EmailReader.read_next s)) =
     [EvSelect "INBOX";
      EvLogInfo "Connection to mail.example.org lost, attempting to reconnect";
      EvOpen "mail.example.org" DEFAULT_PORT; EvLogin "user" "secret";
      EvLogInfo "Reconnect to mail.example.org succeeded, trying last message"].
Proof. repeat split; reflexivity. Qed.

Lemma one_search_selected_by_last_seen_uid_witness :
  issued_searches
    (fst (EmailReader.read_next
            (session None [] [RSelect (Ret tt); RSearch (Ret [Some ""])])))
  = ["SINCE 07-Mar-2024"]
  /\ issued_searches
       (fst (EmailReader.read_next
               (session (Some 41) []
                  [RSelect (Ret tt); RSearch (Ret [Some "41 42"]);
                   RFetch (Ret (Some [FetchTuple "" mail_from_jane]))])))
     = ["UID 41:*"]
  /\ issued_searches
       (fst (EmailReader.read_next
               (session (Some 41) [] [RSelect (Raise IMAP4_error); ROpen (Raise OSError)])))
     = [].
Proof.
  split; [|split].
  - exact (proj1 (one_search_selected_by_last_seen_uid (client := client) (codec := codec)
                    (session None [] [RSelect (Ret tt); RSearch (Ret [Some ""])]) eq_refl)
             0%nat [RSearch (Ret [Some ""])] eq_refl eq_refl).
  - exact (proj1 (one_search_selected_by_last_seen_uid (client := client) (codec := codec)
                    (session (Some 41) []
                       [RSelect (Ret tt); RSearch (Ret [Some "41 42"]);
                        RFetch (Ret (Some [FetchTuple "" mail_from_jane]))]) eq_refl)
             0%nat
             [RSearch (Ret [Some "41 42"]);
              RFetch (Ret (Some [FetchTuple "" mail_from_jane]))]
             eq_refl eq_refl).
  - exact (proj1 (proj2 (one_search_selected_by_last_seen_uid (client := client)
                           (codec := codec)
                           (session (Some 41) []
                              [RSelect (Raise IMAP4_error); ROpen (Raise OSError)]) eq_refl))
             0%nat [ROpen (Raise OSError)] IMAP4_error eq_refl eq_refl).
Defined.

Lemma sender_allowed_iff_address_equals_entry_witness :
  let s := {| EmailReader.reader :=
                EmailReader.__init__ "user" "secret" "mail.example.org" DEFAULT_PORT "INBOX";
              EmailReader.world := [ROpen (Ret 1%nat); RLogin (Ret tt)];
              EmailReader.events := [] |} in
  let me := {| EmailContentSensor._name := "user";
               EmailContentSensor._allowed_senders := ["JANE@EXAMPLE.COM"];
               EmailContentSensor._value_template := None;
               EmailContentSensor._last_id := None;
               EmailContentSensor._message := None;
               EmailContentSensor._state_attributes := None;
               EmailContentSensor.connected := true |} in
  snd (EmailContentSensor.__init__ "user" ["JANE@EXAMPLE.COM"] (None : option unit) s)
    = Ret me
  /\ EmailContentSensor.sender_allowed me (parse_message mail_from_jane) = true
  /\ EmailContentSensor.sender_allowed me
       (MkMessage [("From", "xjane@example.com")] "text/html" (VStr "")) = false.
Proof.
  intros s me.
  assert (Hinit : EmailContentSensor.__init__ "user" ["JANE@EXAMPLE.COM"] None s
                  = (fst (EmailContentSensor.__init__ "user" ["JANE@EXAMPLE.COM"]
                            (None : option unit) s),
                     Ret me))
    by reflexivity.
  destruct (sender_allowed_iff_address_equals_entry (client := client) (codec := codec) s
              (fst (EmailContentSensor.__init__ "user" ["JANE@EXAMPLE.COM"]
                      (None : option unit) s))
              "user" ["JANE@EXAMPLE.COM"] None me Hinit) as [Hiff Hjane].
  split; [reflexivity|]. split.
  - apply Hjane; reflexivity.
  - destruct (EmailContentSensor.sender_allowed me _) eqn:Hallowed; [|reflexivity].
    apply Hiff in Hallowed. destruct Hallowed as [entry [[<- | []] Heq]].
    discriminate Heq.
Defined.

Lemma update_disallowed_sender_keeps_state_witness :
  let s := session None []
             [RSelect (Ret tt); RSearch (Ret [Some "3"]);
              RFetch (Ret (Some [FetchTuple "" mail_from_jane]))] in
  let me := {| EmailContentSensor._name := "user";
               EmailContentSensor._allowed_senders := ["BOB@EXAMPLE.COM"];
               EmailContentSensor._value_template := (None : option unit);
               EmailContentSensor._last_id := None;
               EmailContentSensor._message := Some "Garage door";
               EmailContentSensor._state_attributes := Some {[ATTR_FROM := VStr "bob@example.com"]};
               EmailContentSensor.connected := true |} in
  snd (EmailReader.read_next s) = Ret (Some (parse_message mail_from_jane))
  /\ EmailContentSensor.sender_allowed me (parse_message mail_from_jane) = false
  /\ fst (fst (EmailContentSensor.update (me, s))) = me
  /\ snd (EmailContentSensor.update (me, s)) = Ret tt.
Proof.
  intros s me.
  assert (Hread : EmailReader.read_next s
                  = (fst (EmailReader.read_next s), Ret (Some (parse_message mail_from_jane))))
    by reflexivity.
  pose proof (update_disallowed_sender_keeps_state (client := client) (codec := codec)
                (engine := templates) me s
                (fst (EmailReader.read_next s)) (parse_message mail_from_jane)
                Hread eq_refl) as Hupdate.
  split; [reflexivity|]. split; [reflexivity|].
  rewrite Hupdate. split; reflexivity.
Defined.

Lemma missing_From_gives_empty_sender_witness :
  let email_message := MkMessage [("Subject", "Front door")] "text/html" (VStr "<p>Hi</p>") in
  let me := {| EmailContentSensor._name := "user";
               EmailContentSensor._allowed_senders := ["JANE@EXAMPLE.COM"];
               EmailContentSensor._value_template := (None : option unit);
               EmailContentSensor._last_id := None;
               EmailContentSensor._message := None;
               EmailContentSensor._state_attributes := None;
               EmailContentSensor.connected := true |} in
  getitem email_message "From" = None
  /\ EmailContentSensor.get_msg_sender email_message = ""
  /\ EmailContentSensor.sender_allowed me email_message = false.
Proof.
  intros email_message me.
  destruct (missing_From_gives_empty_sender (Template := unit) email_message eq_refl)
    as [Hsender Hdenied].
  split; [reflexivity|]. split; [exact Hsender|].
  apply Hdenied. simpl. intros [Heq | []]. discriminate Heq.
Defined.

End Runs.

(** * Further properties of the module *)

(** ** Base64 detection and decoding *)

Lemma b64_value_char (n : nat) : (n < 64)%nat -> b64_value (b64_char n) = Some n.
Proof.
  intros Hn. do 64 (destruct n as [|n]; [reflexivity|]). lia.
Qed.

Lemma b64_char_not_pad (n : nat) : (n < 64)%nat -> Ascii.eqb (b64_char n) "="%char = false.
Proof.
  intros Hn. do 64 (destruct n as [|n]; [reflexivity|]). lia.
Qed.

Lemma b64_char_is_ascii (n : nat) : is_ascii_char (b64_char n) = true.
Proof.
  do 64 (destruct n as [|n]; [reflexivity|]).
  unfold b64_char. simpl. destruct n; reflexivity.
Qed.

Lemma nat_of_ascii_bound (a : ascii) : (nat_of_ascii a < 256)%nat.
Proof. apply nat_ascii_bounded. Qed.

Ltac divmod := intros; zify; Z.div_mod_to_equations; lia.

(** One decoding step on a character of the alphabet. *)
Lemma a2b_base64_char (n : nat) (rest : list ascii) (quad_pos leftchar pads : nat)
    (out : list ascii) :
  (n < 64)%nat ->
  a2b_base64 (b64_char n :: rest) quad_pos leftchar pads out =
    match quad_pos with
    | 0%nat => a2b_base64 rest 1%nat n 0%nat out
    | 1%nat => a2b_base64 rest 2%nat (n mod 16)%nat 0%nat
                 (ascii_of_nat (leftchar * 4 + n / 16) :: out)
    | 2%nat => a2b_base64 rest 3%nat (n mod 4)%nat 0%nat
                 (ascii_of_nat (leftchar * 16 + n / 4) :: out)
    | _ => a2b_base64 rest 0%nat 0%nat 0%nat
             (ascii_of_nat (leftchar * 64 + n) :: out)
    end.
Proof.
  intros Hn. cbn [a2b_base64].
  rewrite (b64_char_not_pad n Hn), (b64_value_char n Hn). reflexivity.
Qed.

#[local] Opaque Nat.div Nat.modulo.

(** Decoding undoes encoding, from any position between two quads. *)
Lemma a2b_base64_encode (l : list ascii) :
  forall out, a2b_base64 (b64encode_list l) 0 0 0 out = Ret (rev out ++ l)%list.
Proof.
  assert (Hstep : forall n, forall l : list ascii, (length l <= n)%nat ->
             forall out, a2b_base64 (b64encode_list l) 0 0 0 out = Ret (rev out ++ l)%list).
  { induction n as [|n IH]; intros l0 Hlen out.
    - destruct l0; [|simpl in Hlen; lia]. simpl. rewrite app_nil_r. reflexivity.
    - destruct l0 as [|a [|b [|c r]]].
      + simpl. rewrite app_nil_r. reflexivity.
      + pose proof (nat_of_ascii_bound a) as Ha.
        cbn [b64encode_list].
        rewrite a2b_base64_char by divmod.
        rewrite a2b_base64_char by divmod.
        cbn [a2b_base64]. simpl.
        replace (nat_of_ascii a / 4 * 4 + nat_of_ascii a mod 4 * 16 / 16)%nat
          with (nat_of_ascii a) by divmod.
        rewrite ascii_nat_embedding. simpl. reflexivity.
      + pose proof (nat_of_ascii_bound a) as Ha.
        pose proof (nat_of_ascii_bound b) as Hb.
        cbn [b64encode_list].
        rewrite a2b_base64_char by divmod.
        rewrite a2b_base64_char by divmod.
        rewrite a2b_base64_char by divmod.
        cbn [a2b_base64]. simpl.
        replace (nat_of_ascii a / 4 * 4 + (nat_of_ascii a mod 4 * 16 + nat_of_ascii b / 16) / 16)%nat
          with (nat_of_ascii a) by divmod.
        replace ((nat_of_ascii a mod 4 * 16 + nat_of_ascii b / 16) mod 16 * 16
                 + nat_of_ascii b mod 16 * 4 / 4)%nat
          with (nat_of_ascii b) by divmod.
        rewrite !ascii_nat_embedding. simpl. rewrite <- app_assoc. reflexivity.
      + pose proof (nat_of_ascii_bound a) as Ha.
        pose proof (nat_of_ascii_bound b) as Hb.
        pose proof (nat_of_ascii_bound c) as Hc.
        cbn [b64encode_list].
        rewrite a2b_base64_char by divmod.
        rewrite a2b_base64_char by divmod.
        rewrite a2b_base64_char by divmod.
        rewrite a2b_base64_char by divmod.
        replace (nat_of_ascii a / 4 * 4 + (nat_of_ascii a mod 4 * 16 + nat_of_ascii b / 16) / 16)%nat
          with (nat_of_ascii a) by divmod.
        replace ((nat_of_ascii a mod 4 * 16 + nat_of_ascii b / 16) mod 16 * 16
                 + (nat_of_ascii b mod 16 * 4 + nat_of_ascii c / 64) / 4)%nat
          with (nat_of_ascii b) by divmod.
        replace ((nat_of_ascii b mod 16 * 4 + nat_of_ascii c / 64) mod 4 * 64
                 + nat_of_ascii c mod 64)%nat
          with (nat_of_ascii c) by divmod.
        rewrite !ascii_nat_embedding.
        rewrite IH by (simpl in Hlen; lia).
        simpl. rewrite <- !app_assoc. reflexivity. }
  intros out. apply (Hstep (length l)). lia.
Qed.

#[local] Transparent Nat.div Nat.modulo.

Lemma b64decode_b64encode (b : bytes) : b64decode (b64encode b) = Ret b.
Proof.
  unfold b64decode, b64encode.
  rewrite list_ascii_of_string_of_list_ascii, a2b_base64_encode. simpl.
  rewrite string_of_list_ascii_of_string. reflexivity.
Qed.

Lemma b64encode_list_is_ascii (l : list ascii) :
  forallb is_ascii_char (b64encode_list l) = true.
Proof.
  assert (Hstep : forall n, forall l : list ascii, (length l <= n)%nat ->
             forallb is_ascii_char (b64encode_list l) = true).
  { induction n as [|n IH]; intros l0 Hlen.
    - destruct l0; [reflexivity | simpl in Hlen; lia].
    - destruct l0 as [|a [|b [|c r]]]; cbn [b64encode_list forallb];
        rewrite ?b64_char_is_ascii; try reflexivity.
      simpl. apply IH. simpl in Hlen. lia. }
  apply (Hstep (length l)). lia.
Qed.

Lemma b64encode_is_ascii (b : bytes) : all_ascii (b64encode b) = true.
Proof.
  unfold all_ascii, b64encode. rewrite list_ascii_of_string_of_list_ascii.
  apply b64encode_list_is_ascii.
Qed.

(** X1.  [is_base64] accepts exactly the canonical base64 texts: a [str] or
    [bytes] value that is the [b64encode] of some byte string.  Everything
    else, including [None] and lists, is rejected without raising. *)
Theorem is_base64_iff_canonical (v : PyVal) :
  EmailContentSensor.is_base64 v = true <->
  exists d : bytes, v = VStr (b64encode d) \/ v = VBytes (b64encode d).
Proof.
  unfold EmailContentSensor.is_base64, try_except_Exception. split.
  - intros Hacc.
    destruct v as [| | s | s |]; simpl in Hacc; try discriminate.
    + unfold encode_ascii in Hacc. destruct (all_ascii s); simpl in Hacc; [|discriminate].
      destruct (b64decode s) as [d|e]; simpl in Hacc; [|discriminate].
      apply String.eqb_eq in Hacc. exists d. left. congruence.
    + destruct (b64decode s) as [d|e]; simpl in Hacc; [|discriminate].
      apply String.eqb_eq in Hacc. exists d. right. congruence.
  - intros [d [-> | ->]]; simpl.
    + unfold encode_ascii. rewrite b64encode_is_ascii. simpl.
      rewrite b64decode_b64encode. simpl. apply String.eqb_refl.
    + rewrite b64decode_b64encode. simpl. apply String.eqb_refl.
Qed.

(** X2.  On a text that [is_base64] accepts, [get_plain_text] returns the
    encoded bytes when they are all ASCII, and the fixed placeholder when
    they are not; it never raises. *)
Theorem get_plain_text_of_encoded (d : bytes) :
  EmailContentSensor.get_plain_text (VStr (b64encode d)) =
    (if all_ascii d then d else "Could Not Convert From Base64")
  /\ EmailContentSensor.get_plain_text (VBytes (b64encode d)) =
    (if all_ascii d then d else "Could Not Convert From Base64").
Proof.
  unfold EmailContentSensor.get_plain_text, try_except_Exception. simpl.
  unfold encode_ascii. rewrite b64encode_is_ascii. simpl.
  rewrite b64decode_b64encode. simpl. unfold decode_ascii.
  destruct (all_ascii d); split; reflexivity.
Qed.

(** ** Message body selection *)

(** X3.  Every message that contains a [text/plain] part, at any depth,
    makes [get_msg_text] raise [NameError]: the body of such a message is
    never returned. *)
Theorem get_msg_text_raises_on_every_text_plain_part (email_message : Message) :
  existsb is_text_plain (walk email_message) = true ->
  EmailContentSensor.get_msg_text email_message = Raise (NameError "is_base64").
Proof. apply get_msg_text_text_plain. Qed.

(** X4.  For a message without [text/plain] part [get_msg_text] returns
    the payload of the first [text/html] part that has one, else the payload
    of the first part of another [text/...] type that has one, else the
    payload of the message itself; later parts of a category never replace
    an earlier one. *)
Theorem get_msg_text_precedence_without_text_plain (email_message : Message) :
  existsb is_text_plain (walk email_message) = false ->
  EmailContentSensor.get_msg_text email_message =
    Ret (first_not_None
           [first_payload is_text_html (walk email_message);
            first_payload is_other_text (walk email_message)]
           (get_payload email_message)).
Proof. apply get_msg_text_without_text_plain. Qed.

(** ** The reader *)

Lemma try_except_pass {St A} (body handler : M St A) (caught : exn -> bool)
    (s s' : St) (r : result A) :
  body s = (s', r) ->
  (forall e, r = Raise e -> caught e = false) ->
  try_except body caught handler s = (s', r).
Proof.
  intros Hbody Hpass. unfold try_except. rewrite Hbody.
  destruct r as [a | e]; [reflexivity|]. rewrite (Hpass e eq_refl). reflexivity.
Qed.

Section MoreReaderFacts.
Context {World Conn : Type} {client : ImapClient World Conn} {codec : EmailCodec}.

#[local] Instance extended_refl : Reflexive (extended (World := World) (Conn := Conn)).
Proof. intros s. exists []. rewrite app_nil_r. reflexivity. Qed.

#[local] Instance extended_trans : Transitive (extended (World := World) (Conn := Conn)).
Proof.
  intros a b c [l1 H1] [l2 H2]. exists (l1 ++ l2)%list.
  rewrite H2, H1, app_assoc. reflexivity.
Qed.

Ltac by_steps :=
  repeat first
    [ match goal with
      | |- Reflexive _ => exact _
      | |- Transitive _ => exact _
      end
    | apply respects_ret | apply respects_raise | apply respects_lift
    | apply respects_get | apply respects_self
    | apply respects_bind
    | apply respects_try_except
    | apply respects_assign
    | apply respects_emit
    | apply respects_call
    | match goal with
      | |- forall _, _ => intros ?
      | |- respects _ (match ?x with _ => _ end) => destruct x
      end ].

Ltac by_config := intros; unfold unchanged, reader_config; simpl; reflexivity.

Ltac by_extension :=
  intros; unfold extended; simpl;
  first [ eexists; reflexivity | exists []; rewrite app_nil_r; reflexivity ].

Lemma fetched_message_no_protocol_error (message_data : option (list FetchItem)) :
  forall e, EmailReader.fetched_message message_data = Raise e -> is_IMAP4_error e = false.
Proof.
  intros e. destruct message_data as [[| [| ? ? | b] ?] |]; simpl; try discriminate.
  - intros [= <-]. reflexivity.
  - destruct (String.length b <? 2)%nat; intros [= <-]; reflexivity.
Qed.

(** A fetch that the server answers. *)
Lemma fetch_answered (s : EmailReader.Sys World Conn) (c : Conn) (uid : string)
    (w : World) (message_data : option (list FetchItem)) :
  EmailReader.connection (EmailReader.reader s) = Some c ->
  imap_uid_fetch c uid (EmailReader.world s) = (w, Ret message_data) ->
  EmailReader._fetch_message uid s =
    ({| EmailReader.reader := EmailReader.reader s;
        EmailReader.world := w;
        EmailReader.events := (EmailReader.events s ++ [EvFetch uid])%list |},
     EmailReader.fetched_message message_data).
Proof.
  intros Hc Hfetch.
  cbv [EmailReader._fetch_message EmailReader.the_connection EmailReader.self
       EmailReader.call bind ret raise lift].
  rewrite Hc, Hfetch. reflexivity.
Qed.

Lemma loop_extends queue : respects extended (EmailReader.read_next_loop queue).
Proof.
  induction queue as [|uid rest IH]; simpl; [apply respects_ret; exact _|].
  unfold EmailReader._fetch_message, EmailReader.the_connection.
  by_steps; try exact IH; by_extension.
Qed.

Lemma except_extends : respects extended EmailReader.read_next_except.
Proof.
  unfold EmailReader.read_next_except, EmailReader.connect,
    EmailReader._fetch_message, EmailReader.the_connection.
  by_steps; by_extension.
Qed.

Lemma connect_keeps_config : respects (unchanged reader_config) EmailReader.connect.
Proof. unfold EmailReader.connect. by_steps; by_config. Qed.

Lemma loop_keeps_config queue :
  respects (unchanged reader_config) (EmailReader.read_next_loop queue).
Proof.
  induction queue as [|uid rest IH]; simpl; [apply respects_ret; exact _|].
  unfold EmailReader._fetch_message, EmailReader.the_connection.
  by_steps; try exact IH; by_config.
Qed.

Lemma try_keeps_config : respects (unchanged reader_config) EmailReader.read_next_try.
Proof.
  unfold EmailReader.read_next_try, EmailReader.read_next_search,
    EmailReader.read_next_deliver, EmailReader._fetch_message,
    EmailReader.the_connection.
  by_steps; try apply loop_keeps_config; by_config.
Qed.

Lemma except_keeps_config : respects (unchanged reader_config) EmailReader.read_next_except.
Proof.
  unfold EmailReader.read_next_except, EmailReader._fetch_message,
    EmailReader.the_connection.
  by_steps; try apply connect_keeps_config; by_config.
Qed.

(** X5.  Neither a poll nor a (re)connect ever changes the user, password,
    server, port or folder the reader was created with. *)
Theorem session_config_is_never_modified (s : EmailReader.Sys World Conn) :
  reader_config (fst (EmailReader.read_next s)) = reader_config s
  /\ reader_config (fst (EmailReader.connect s)) = reader_config s.
Proof.
  split.
  - apply (respects_try_except (unchanged reader_config)).
    + apply try_keeps_config.
    + apply except_keeps_config.
  - apply connect_keeps_config.
Qed.

(** X6.  No IMAP protocol error ever leaves [read_next] or [connect]. *)
Theorem protocol_errors_are_contained (s : EmailReader.Sys World Conn) :
  snd (EmailReader.read_next s) <> Raise IMAP4_error
  /\ snd (EmailReader.connect s) <> Raise IMAP4_error.
Proof.
  split.
  - apply read_next_never_raises_IMAP4_error.
  - apply connect_never_raises_IMAP4_error.
Qed.

(** X7.  A call of [connect] opens exactly one session, to the configured
    server and port; a poll opens none, or that one. *)
Theorem sessions_opened (s : EmailReader.Sys World Conn) :
  let target := (EmailReader._server (EmailReader.reader s),
                 EmailReader._port (EmailReader.reader s)) in
  issued_opens (fst (EmailReader.connect s)) = (issued_opens s ++ [target])%list
  /\ (issued_opens (fst (EmailReader.read_next s)) = issued_opens s
      \/ issued_opens (fst (EmailReader.read_next s)) = (issued_opens s ++ [target])%list).
Proof.
  intros target. split; [apply connect_opens_once|].
  unfold EmailReader.read_next, try_except.
  pose proof (try_no_open s) as Hopen. pose proof (try_keeps_config s) as Hcfg.
  unfold unchanged in Hopen, Hcfg.
  destruct (EmailReader.read_next_try s) as [s1 [m | e]]; simpl in *; [left; exact Hopen|].
  destruct (is_IMAP4_error e); simpl; [|left; exact Hopen].
  right. rewrite except_opens_once, Hopen. unfold target.
  unfold reader_config in Hcfg. inversion Hcfg as [[Hu Hp Hs Hport Hf]].
  rewrite Hs, Hport. reflexivity.
Qed.

(** X8.  When the session opens and the login is accepted, [connect]
    returns [True] and the reader holds the new connection. *)
Theorem connect_success (s : EmailReader.Sys World Conn) (c : Conn) (w1 w2 : World) :
  IMAP4_SSL (EmailReader._server (EmailReader.reader s))
            (EmailReader._port (EmailReader.reader s)) (EmailReader.world s) = (w1, Ret c) ->
  imap_login c (EmailReader._user (EmailReader.reader s))
             (EmailReader._password (EmailReader.reader s)) w1 = (w2, Ret tt) ->
  EmailReader.connect s =
    ({| EmailReader.reader := EmailReader.set_connection (Some c) (EmailReader.reader s);
        EmailReader.world := w2;
        EmailReader.events :=
          (EmailReader.events s ++
           [EvOpen (EmailReader._server (EmailReader.reader s))
                   (EmailReader._port (EmailReader.reader s));
            EvLogin (EmailReader._user (EmailReader.reader s))
                    (EmailReader._password (EmailReader.reader s))])%list |},
     Ret true).
Proof.
  intros Hssl Hlogin.
  cbv [EmailReader.connect EmailReader.self EmailReader.call EmailReader.assign
       EmailReader.emit bind try_except modify ret].
  simpl. rewrite Hssl. simpl. rewrite Hlogin. simpl.
  rewrite <- app_assoc. reflexivity.
Qed.

(** X9.  After a failed [connect] the reader's connection is the old one
    when the session could not be opened, but the new, unauthenticated one
    when only the login was rejected. *)
Theorem connection_after_failed_connect (s : EmailReader.Sys World Conn) :
  (forall w, IMAP4_SSL (EmailReader._server (EmailReader.reader s))
                       (EmailReader._port (EmailReader.reader s))
                       (EmailReader.world s) = (w, Raise IMAP4_error) ->
             snd (EmailReader.connect s) = Ret false
             /\ EmailReader.reader (fst (EmailReader.connect s)) = EmailReader.reader s)
  /\ (forall c w1 w2,
         IMAP4_SSL (EmailReader._server (EmailReader.reader s))
                   (EmailReader._port (EmailReader.reader s))
                   (EmailReader.world s) = (w1, Ret c) ->
         imap_login c (EmailReader._user (EmailReader.reader s))
                    (EmailReader._password (EmailReader.reader s)) w1
           = (w2, Raise IMAP4_error) ->
         snd (EmailReader.connect s) = Ret false
         /\ EmailReader.reader (fst (EmailReader.connect s))
            = EmailReader.set_connection (Some c) (EmailReader.reader s)).
Proof.
  split.
  - intros w Hssl.
    cbv [EmailReader.connect EmailReader.self EmailReader.call EmailReader.assign
         EmailReader.emit bind try_except modify ret].
    simpl. rewrite Hssl. simpl. split; reflexivity.
  - intros c w1 w2 Hssl Hlogin.
    cbv [EmailReader.connect EmailReader.self EmailReader.call EmailReader.assign
         EmailReader.emit bind try_except modify ret].
    simpl. rewrite Hssl. simpl. rewrite Hlogin. simpl. split; reflexivity.
Qed.

Lemma search_skipped (s : EmailReader.Sys World Conn) :
  pending_uids s <> [] -> EmailReader.read_next_search s = (s, Ret tt).
Proof.
  intros Hq. cbv [EmailReader.read_next_search EmailReader.self bind ret].
  unfold pending_uids in Hq.
  destruct (EmailReader._unread_ids (EmailReader.reader s)); [contradiction | reflexivity].
Qed.

Lemma search_answered (s : EmailReader.Sys World Conn) (c : Conn) (w : World)
    (d : bytes) (data : list (option bytes)) :
  EmailReader.connection (EmailReader.reader s) = Some c ->
  pending_uids s = [] ->
  imap_uid_search c
    (EmailReader.search_criterion (date_today (EmailReader.world s)) (last_seen_uid s))
    (EmailReader.world s) = (w, Ret (Some d :: data)) ->
  EmailReader.read_next_search s =
    ({| EmailReader.reader := EmailReader.set_unread_ids (split d) (EmailReader.reader s);
        EmailReader.world := w;
        EmailReader.events :=
          (EmailReader.events s ++
           [EvSearch (EmailReader.search_criterion (date_today (EmailReader.world s))
                        (last_seen_uid s))])%list |},
     Ret tt).
Proof.
  intros Hc Hq Hsearch. unfold pending_uids in Hq. unfold last_seen_uid in Hsearch.
  cbv [EmailReader.read_next_search EmailReader.the_connection EmailReader.self
       EmailReader.call EmailReader.assign bind get modify ret raise].
  rewrite Hq, Hc. unfold last_seen_uid. rewrite Hsearch. reflexivity.
Qed.

(** The loop skips the tokens already seen and stops at the first newer
    one: it records it, leaves the later tokens queued and fetches it. *)
Lemma loop_delivers (seen : option Z) (t : bytes) (n : Z) (later : list bytes) :
  int t = Ret n ->
  newer_than seen n ->
  forall (older : list bytes) (s : EmailReader.Sys World Conn),
    last_seen_uid s = seen ->
    Forall (already_seen seen) older ->
    EmailReader.read_next_loop (older ++ t :: later) s =
      (m <- EmailReader._fetch_message t ;; ret (Some m))%py
        {| EmailReader.reader :=
             EmailReader.set_last_id (Some n)
               (EmailReader.set_unread_ids later (EmailReader.reader s));
           EmailReader.world := EmailReader.world s;
           EmailReader.events := EmailReader.events s |}.
Proof.
  intros Hint Hnew older.
  induction older as [|o older IH]; intros s Hlast Hseen.
  - cbn [app EmailReader.read_next_loop].
    unfold bind at 1. simpl. unfold bind at 1. simpl.
    unfold last_seen_uid in Hlast. rewrite Hlast.
    destruct seen as [u|]; simpl in Hnew.
    + unfold bind at 1. unfold bind at 1. unfold lift at 1. rewrite Hint. simpl.
      apply Z.ltb_lt in Hnew. rewrite Hnew. reflexivity.
    + unfold bind at 1. simpl.
      unfold bind at 1. unfold lift at 1. rewrite Hint. reflexivity.
  - apply Forall_cons_iff in Hseen as [Ho Hrest].
    destruct seen as [u|]; [|contradiction].
    destruct Ho as [m [Hm Hle]].
    cbn [app EmailReader.read_next_loop].
    unfold bind at 1. simpl. unfold bind at 1. simpl.
    unfold last_seen_uid in Hlast. rewrite Hlast.
    unfold bind at 1. unfold bind at 1. unfold lift at 1. rewrite Hm. simpl.
    destruct (u <? m) eqn:Hlt; [apply Z.ltb_lt in Hlt; lia|].
    rewrite IH; auto.
Qed.

(** X10.  While UIDs are pending, a poll issues no search at all, whatever
    the server answers. *)
Theorem no_search_while_uids_are_pending (s : EmailReader.Sys World Conn) :
  pending_uids s <> [] ->
  issued_searches (fst (EmailReader.read_next s)) = issued_searches s.
Proof.
  intros Hq.
  assert (Htry : issued_searches (fst (EmailReader.read_next_try s)) = issued_searches s).
  { destruct (EmailReader.connection (EmailReader.reader s)) as [c|] eqn:Hc.
    - destruct (imap_select c (EmailReader._folder (EmailReader.reader s))
                  (EmailReader.world s)) as [w [[] | e]] eqn:Hsel.
      + rewrite (read_next_try_selected s c w Hc Hsel).
        unfold bind at 1. rewrite search_skipped by exact Hq.
        rewrite (deliver_no_search _).
        unfold issued_searches. simpl. rewrite searches_app. simpl.
        apply app_nil_r.
      + cbv [EmailReader.read_next_try EmailReader.the_connection EmailReader.self
             EmailReader.call bind ret raise].
        rewrite Hc, Hsel. unfold issued_searches. simpl. rewrite searches_app. simpl.
        apply app_nil_r.
    - cbv [EmailReader.read_next_try EmailReader.the_connection EmailReader.self
           bind ret raise].
      rewrite Hc. reflexivity. }
  unfold EmailReader.read_next, try_except.
  destruct (EmailReader.read_next_try s) as [s1 [m | e]]; simpl in *; [exact Htry|].
  destruct (is_IMAP4_error e); simpl; [|exact Htry].
  rewrite (except_no_search s1). exact Htry.
Qed.

(** X11.  With UIDs pending, a poll skips the queued UIDs that are not
    newer than the last-seen one, stops at the first newer UID, records it
    as last-seen, keeps the UIDs behind it queued for the next poll, and
    returns what fetching it yields; nothing but the select and that fetch is
    asked of the server. *)
Theorem delivers_first_newer_pending_uid
    (s : EmailReader.Sys World Conn) (c : Conn) (w1 w2 : World)
    (older later : list bytes) (t : bytes) (n : Z)
    (message_data : option (list FetchItem)) :
  EmailReader.connection (EmailReader.reader s) = Some c ->
  imap_select c (EmailReader._folder (EmailReader.reader s)) (EmailReader.world s)
    = (w1, Ret tt) ->
  pending_uids s = (older ++ t :: later)%list ->
  Forall (already_seen (last_seen_uid s)) older ->
  int t = Ret n ->
  newer_than (last_seen_uid s) n ->
  imap_uid_fetch c t w1 = (w2, Ret message_data) ->
  EmailReader.read_next s =
    ({| EmailReader.reader :=
          EmailReader.set_last_id (Some n)
            (EmailReader.set_unread_ids later (EmailReader.reader s));
        EmailReader.world := w2;
        EmailReader.events :=
          (EmailReader.events s ++
           [EvSelect (EmailReader._folder (EmailReader.reader s)); EvFetch t])%list |},
     EmailReader.fetched_message message_data).
Proof.
  intros Hc Hsel Hq Hseen Hint Hnew Hfetch.
  apply try_except_pass; [|apply fetched_message_no_protocol_error].
  rewrite (read_next_try_selected s c w1 Hc Hsel).
  unfold bind at 1. rewrite search_skipped
    by (unfold pending_uids in *; simpl; rewrite Hq; destruct older; discriminate).
  unfold EmailReader.read_next_deliver.
  unfold bind at 1. simpl. unfold bind at 1.
  unfold pending_uids in Hq. rewrite Hq.
  rewrite (loop_delivers (last_seen_uid s) t n later Hint Hnew) by auto.
  unfold bind at 1.
  erewrite fetch_answered by (simpl; eauto).
  simpl. rewrite <- app_assoc. simpl.
  destruct (EmailReader.fetched_message message_data); reflexivity.
Qed.

(** X12.  With the queue empty, the poll searches, queues the UIDs of the
    answer, and delivers the first of them that is newer than the last-seen
    UID (on a first poll: simply the first), recording it and keeping the
    UIDs behind it for the next polls. *)
Theorem search_delivers_first_newer_uid
    (s : EmailReader.Sys World Conn) (c : Conn) (w1 w2 w3 : World)
    (d : bytes) (data : list (option bytes))
    (older later : list bytes) (t : bytes) (n : Z)
    (message_data : option (list FetchItem)) :
  EmailReader.connection (EmailReader.reader s) = Some c ->
  pending_uids s = [] ->
  imap_select c (EmailReader._folder (EmailReader.reader s)) (EmailReader.world s)
    = (w1, Ret tt) ->
  imap_uid_search c (EmailReader.search_criterion (date_today w1) (last_seen_uid s)) w1
    = (w2, Ret (Some d :: data)) ->
  split d = (older ++ t :: later)%list ->
  Forall (already_seen (last_seen_uid s)) older ->
  int t = Ret n ->
  newer_than (last_seen_uid s) n ->
  imap_uid_fetch c t w2 = (w3, Ret message_data) ->
  EmailReader.read_next s =
    ({| EmailReader.reader :=
          EmailReader.set_last_id (Some n)
            (EmailReader.set_unread_ids later (EmailReader.reader s));
        EmailReader.world := w3;
        EmailReader.events :=
          (EmailReader.events s ++
           [EvSelect (EmailReader._folder (EmailReader.reader s));
            EvSearch (EmailReader.search_criterion (date_today w1) (last_seen_uid s));
            EvFetch t])%list |},
     EmailReader.fetched_message message_data).
Proof.
  intros Hc Hq Hsel Hsearch Hsplit Hseen Hint Hnew Hfetch.
  apply try_except_pass; [|apply fetched_message_no_protocol_error].
  rewrite (read_next_try_selected s c w1 Hc Hsel).
  unfold bind at 1.
  erewrite search_answered by (simpl; eauto).
  unfold EmailReader.read_next_deliver.
  unfold bind at 1. cbn [EmailReader.self]. unfold bind at 1.
  cbn [EmailReader.reader EmailReader._unread_ids EmailReader.set_unread_ids].
  rewrite Hsplit.
  rewrite (loop_delivers (last_seen_uid s) t n later Hint Hnew) by auto.
  unfold bind at 1.
  erewrite fetch_answered by (simpl; eauto).
  simpl. rewrite <- !app_assoc. simpl.
  destruct (EmailReader.fetched_message message_data); reflexivity.
Qed.

Lemma search_extends : respects extended EmailReader.read_next_search.
Proof.
  unfold EmailReader.read_next_search, EmailReader.the_connection.
  by_steps; by_extension.
Qed.

Lemma deliver_extends : respects extended EmailReader.read_next_deliver.
Proof.
  unfold EmailReader.read_next_deliver, EmailReader._fetch_message,
    EmailReader.the_connection.
  by_steps; try apply loop_extends; by_extension.
Qed.

Lemma read_next_extends_try (s : EmailReader.Sys World Conn) :
  extended (fst (EmailReader.read_next_try s)) (fst (EmailReader.read_next s)).
Proof.
  unfold EmailReader.read_next, try_except.
  destruct (EmailReader.read_next_try s) as [s1 [m | e]]; simpl; [reflexivity|].
  destruct (is_IMAP4_error e); simpl; [apply except_extends | reflexivity].
Qed.

Lemma fetch_issued (s : EmailReader.Sys World Conn) (c : Conn) (uid : string) :
  EmailReader.connection (EmailReader.reader s) = Some c ->
  EmailReader.events (fst (EmailReader._fetch_message uid s)) =
    (EmailReader.events s ++ [EvFetch uid])%list.
Proof.
  intros Hc.
  cbv [EmailReader._fetch_message EmailReader.the_connection EmailReader.self
       EmailReader.call bind ret raise lift].
  rewrite Hc. destruct (imap_uid_fetch c uid (EmailReader.world s)) as [w [md | e]];
    reflexivity.
Qed.

(** X13.  On a session that has seen no UID yet, a search that finds no
    message is followed by a fetch of the literal UID [None]: with nothing
    to deliver, the poll falls through to re-fetching the last-seen UID,
    which is still [None]. *)
Theorem fresh_session_without_mail_fetches_None
    (s : EmailReader.Sys World Conn) (c : Conn) (w1 w2 : World)
    (d : bytes) (data : list (option bytes)) :
  EmailReader.connection (EmailReader.reader s) = Some c ->
  last_seen_uid s = None ->
  pending_uids s = [] ->
  imap_select c (EmailReader._folder (EmailReader.reader s)) (EmailReader.world s)
    = (w1, Ret tt) ->
  imap_uid_search c ("SINCE " +:+ strftime_d_b_Y (date_today w1)) w1
    = (w2, Ret (Some d :: data)) ->
  split d = [] ->
  exists l,
    EmailReader.events (fst (EmailReader.read_next s)) =
      (EmailReader.events s ++
       [EvSelect (EmailReader._folder (EmailReader.reader s));
        EvSearch ("SINCE " +:+ strftime_d_b_Y (date_today w1));
        EvFetch "None"] ++ l)%list.
Proof.
  intros Hc Hlast Hq Hsel Hsearch Hsplit.
  assert (Hsearch' :
            imap_uid_search c
              (EmailReader.search_criterion (date_today w1) (last_seen_uid s)) w1
            = (w2, Ret (Some d :: data)))
    by (rewrite Hlast; exact Hsearch).
  assert (Htry : EmailReader.events (fst (EmailReader.read_next_try s)) =
                 (EmailReader.events s ++
                  [EvSelect (EmailReader._folder (EmailReader.reader s));
                   EvSearch ("SINCE " +:+ strftime_d_b_Y (date_today w1));
                   EvFetch "None"])%list).
  { rewrite (read_next_try_selected s c w1 Hc Hsel).
    unfold bind at 1.
    erewrite search_answered by (simpl; eauto).
    unfold EmailReader.read_next_deliver.
    unfold bind at 1. cbn [EmailReader.self]. unfold bind at 1.
    cbn [EmailReader.reader EmailReader._unread_ids EmailReader.set_unread_ids].
    rewrite Hsplit. cbn [EmailReader.read_next_loop]. unfold ret at 1.
    unfold bind at 1. cbn [EmailReader.self].
    cbn [EmailReader.reader EmailReader._last_id EmailReader.set_unread_ids].
    unfold last_seen_uid in *. simpl. rewrite Hlast. cbn [str_opt_int].
    rewrite (fetch_issued _ c "None") by exact Hc.
    simpl. rewrite <- !app_assoc. reflexivity. }
  destruct (read_next_extends_try s) as [l Hl].
  exists l. rewrite Hl, Htry, <- app_assoc. reflexivity.
Qed.

(** The loop raises at the first token that is not an integer, after having
    taken it off the queue. *)
Lemma loop_raises (seen : option Z) (t : bytes) (e : exn) (later : list bytes) :
  int t = Raise e ->
  forall (older : list bytes) (s : EmailReader.Sys World Conn),
    last_seen_uid s = seen ->
    Forall (already_seen seen) older ->
    EmailReader.read_next_loop (older ++ t :: later) s =
      ({| EmailReader.reader := EmailReader.set_unread_ids later (EmailReader.reader s);
          EmailReader.world := EmailReader.world s;
          EmailReader.events := EmailReader.events s |},
       Raise e).
Proof.
  intros Hint older.
  induction older as [|o older IH]; intros s Hlast Hseen.
  - cbn [app EmailReader.read_next_loop].
    unfold bind at 1. simpl. unfold bind at 1. simpl.
    unfold last_seen_uid in Hlast. rewrite Hlast.
    destruct seen as [u|].
    + unfold bind at 1. unfold bind at 1. unfold lift at 1. rewrite Hint. reflexivity.
    + unfold bind at 1. simpl.
      unfold bind at 1. unfold lift at 1. rewrite Hint. reflexivity.
  - apply Forall_cons_iff in Hseen as [Ho Hrest].
    destruct seen as [u|]; [|contradiction].
    destruct Ho as [m [Hm Hle]].
    cbn [app EmailReader.read_next_loop].
    unfold bind at 1. simpl. unfold bind at 1. simpl.
    unfold last_seen_uid in Hlast. rewrite Hlast.
    unfold bind at 1. unfold bind at 1. unfold lift at 1. rewrite Hm. simpl.
    destruct (u <? m) eqn:Hlt; [apply Z.ltb_lt in Hlt; lia|].
    rewrite IH; auto.
Qed.

(** X14.  A pending token that is not an integer makes the poll raise
    [ValueError] to its caller as soon as the loop reaches it: the token has
    been taken off the queue, the last-seen UID is untouched, nothing is
    fetched and no reconnect is attempted. *)
Theorem malformed_uid_raises_ValueError
    (s : EmailReader.Sys World Conn) (c : Conn) (w1 : World)
    (older later : list bytes) (t : bytes) :
  EmailReader.connection (EmailReader.reader s) = Some c ->
  imap_select c (EmailReader._folder (EmailReader.reader s)) (EmailReader.world s)
    = (w1, Ret tt) ->
  pending_uids s = (older ++ t :: later)%list ->
  Forall (already_seen (last_seen_uid s)) older ->
  int t = Raise ValueError ->
  EmailReader.read_next s =
    ({| EmailReader.reader := EmailReader.set_unread_ids later (EmailReader.reader s);
        EmailReader.world := w1;
        EmailReader.events :=
          (EmailReader.events s ++
           [EvSelect (EmailReader._folder (EmailReader.reader s))])%list |},
     Raise ValueError).
Proof.
  intros Hc Hsel Hq Hseen Hint.
  apply try_except_pass; [|intros e [= <-]; reflexivity].
  rewrite (read_next_try_selected s c w1 Hc Hsel).
  unfold bind at 1. rewrite search_skipped
    by (unfold pending_uids in *; simpl; rewrite Hq; destruct older; discriminate).
  unfold EmailReader.read_next_deliver.
  unfold bind at 1. simpl. unfold bind at 1.
  unfold pending_uids in Hq. rewrite Hq.
  rewrite (loop_raises (last_seen_uid s) t ValueError later Hint) by auto.
  reflexivity.
Qed.

(** X15.  On a reader that holds a connection, the first thing a poll asks
    of the server is the selection of the configured folder; every search,
    fetch or reconnect of that poll comes after it. *)
Theorem poll_starts_with_select (s : EmailReader.Sys World Conn) (c : Conn) :
  EmailReader.connection (EmailReader.reader s) = Some c ->
  exists l,
    EmailReader.events (fst (EmailReader.read_next s)) =
      (EmailReader.events s
       ++ EvSelect (EmailReader._folder (EmailReader.reader s)) :: l)%list.
Proof.
  intros Hc.
  assert (Htry : exists l,
             EmailReader.events (fst (EmailReader.read_next_try s)) =
               (EmailReader.events s
                ++ EvSelect (EmailReader._folder (EmailReader.reader s)) :: l)%list).
  { destruct (imap_select c (EmailReader._folder (EmailReader.reader s))
                (EmailReader.world s)) as [w [[] | e]] eqn:Hsel.
    - rewrite (read_next_try_selected s c w Hc Hsel).
      match goal with |- context [?m ?s1] =>
        match m with
        | (bind _ _) =>
            assert (Hext : extended s1 (fst (m s1)))
              by (apply (respects_bind extended);
                  [apply search_extends | intros ?; apply deliver_extends])
        end
      end.
      destruct Hext as [l Hl]. exists l. rewrite Hl. simpl.
      rewrite <- app_assoc. reflexivity.
    - exists []. cbv [EmailReader.read_next_try EmailReader.the_connection
                      EmailReader.self EmailReader.call bind ret raise].
      rewrite Hc, Hsel. reflexivity. }
  destruct Htry as [l1 Hl1]. destruct (read_next_extends_try s) as [l2 Hl2].
  exists (l1 ++ l2)%list. rewrite Hl2, Hl1, <- app_assoc. reflexivity.
Qed.

End MoreReaderFacts.

(** ** The sensor *)

Section MoreSensorFacts.
Context {World Conn Template : Type}
        {client : ImapClient World Conn} {codec : EmailCodec}
        {engine : TemplateEngine Template}.

Ltac run_update :=
  cbv [EmailContentSensor.update EmailContentSensor.self EmailContentSensor.assign
       zoom bind modify lift ret fst snd].

(** X16.  A tick on which [read_next] returns [None] empties the published
    state: the value becomes [None] and the attributes the empty
    dictionary. *)
Theorem update_clears_state_on_None
    (me : EmailContentSensor.Self Template) (s s' : EmailReader.Sys World Conn) :
  EmailReader.read_next s = (s', Ret None) ->
  EmailContentSensor.update (me, s) =
    ((EmailContentSensor.set_state_attributes (Some ∅)
        (EmailContentSensor.set_message None me), s'),
     Ret tt).
Proof. intros Hread. run_update. rewrite Hread. reflexivity. Qed.

(** X17.  A value that is published stays published unless [read_next]
    returns [None]: no other tick, whether it raises, meets a sender that is
    not allowed or publishes a new message, leaves the value [None]. *)
Theorem published_value_cleared_only_on_None
    (me : EmailContentSensor.Self Template) (s : EmailReader.Sys World Conn) :
  EmailContentSensor._message me <> None ->
  EmailContentSensor._message (fst (fst (EmailContentSensor.update (me, s)))) = None ->
  snd (EmailReader.read_next s) = Ret None.
Proof.
  intros Hset Hcleared.
  destruct (update_clears_only_on_None me s Hcleared) as [Hnone | Hread];
    [contradiction | exact Hread].
Qed.

(** X18.  Without a template, a message from an allowed sender whose subject
    decodes and whose body can be extracted is published: the value is the
    decoded subject and the attributes are exactly [from], [subject], [date]
    and [body]. *)
Theorem update_publishes_subject_and_fields
    (me : EmailContentSensor.Self Template) (s s' : EmailReader.Sys World Conn)
    (email_message : Message) (subject : string) (body : PyVal) :
  EmailReader.read_next s = (s', Ret (Some email_message)) ->
  EmailContentSensor.sender_allowed me email_message = true ->
  EmailContentSensor._value_template me = None ->
  EmailContentSensor.get_msg_subject email_message = Ret subject ->
  EmailContentSensor.get_msg_text email_message = Ret body ->
  exists attributes : gmap string PyVal,
    EmailContentSensor.update (me, s) =
      ((EmailContentSensor.set_state_attributes (Some attributes)
          (EmailContentSensor.set_message (Some subject) me), s'),
       Ret tt)
    /\ attributes !! ATTR_FROM = Some (VStr (EmailContentSensor.get_msg_sender email_message))
    /\ attributes !! ATTR_SUBJECT = Some (VStr subject)
    /\ attributes !! ATTR_DATE = Some (of_opt_str (getitem email_message "Date"))
    /\ attributes !! ATTR_BODY = Some body
    /\ dom attributes = {[ATTR_FROM; ATTR_SUBJECT; ATTR_DATE; ATTR_BODY]}.
Proof.
  intros Hread Hallowed Htemplate Hsubject Hbody.
  exists (<[ATTR_FROM := VStr (EmailContentSensor.get_msg_sender email_message)]>
          (<[ATTR_SUBJECT := VStr subject]>
           (<[ATTR_DATE := of_opt_str (getitem email_message "Date")]>
            (<[ATTR_BODY := body]> ∅)))).
  split.
  { run_update. rewrite Hread, Hallowed.
    unfold EmailContentSensor.message_fields.
    rewrite Hsubject, Htemplate. simpl. rewrite Hbody. reflexivity. }
  split; [apply lookup_insert_eq|].
  split; [rewrite lookup_insert_ne by discriminate; apply lookup_insert_eq|].
  split; [rewrite !lookup_insert_ne by discriminate; apply lookup_insert_eq|].
  split; [rewrite !lookup_insert_ne by discriminate; apply lookup_insert_eq|].
  rewrite !dom_insert_L, dom_empty_L. set_solver.
Qed.

(** X19.  With a template, a message from an allowed sender is published
    with the rendered text as value, and the four extracted fields as
    attributes. *)
Theorem update_publishes_rendered_template
    (me : EmailContentSensor.Self Template) (s s' : EmailReader.Sys World Conn)
    (email_message : Message) (t : Template) (text : string) :
  EmailReader.read_next s = (s', Ret (Some email_message)) ->
  EmailContentSensor.sender_allowed me email_message = true ->
  EmailContentSensor._value_template me = Some t ->
  EmailContentSensor.render_template t email_message = Ret text ->
  exists attributes : gmap string PyVal,
    EmailContentSensor.message_fields email_message = Ret attributes
    /\ render t attributes = Ret text
    /\ EmailContentSensor.update (me, s) =
         ((EmailContentSensor.set_state_attributes (Some attributes)
             (EmailContentSensor.set_message (Some text) me), s'),
          Ret tt).
Proof.
  intros Hread Hallowed Htemplate Hrender.
  unfold EmailContentSensor.render_template in Hrender.
  destruct (EmailContentSensor.message_fields email_message) as [attributes | e] eqn:Hfields;
    [|discriminate].
  simpl in Hrender. exists attributes. split; [reflexivity|]. split; [exact Hrender|].
  assert (Hsubject : exists subject,
             EmailContentSensor.get_msg_subject email_message = Ret subject).
  { unfold EmailContentSensor.message_fields in Hfields.
    destruct (EmailContentSensor.get_msg_subject email_message) as [subject | e];
      [eauto | discriminate]. }
  destruct Hsubject as [subject Hsubject].
  run_update. rewrite Hread, Hallowed, Hsubject, Htemplate.
  unfold EmailContentSensor.render_template. rewrite Hfields. simpl.
  rewrite Hrender. reflexivity.
Qed.

(** X20.  A message from an allowed sender that has no [Subject] header
    makes [update] raise [TypeError]; the published state is left as it
    was. *)
Theorem update_raises_on_missing_Subject
    (me : EmailContentSensor.Self Template) (s s' : EmailReader.Sys World Conn)
    (email_message : Message) :
  EmailReader.read_next s = (s', Ret (Some email_message)) ->
  EmailContentSensor.sender_allowed me email_message = true ->
  getitem email_message "Subject" = None ->
  EmailContentSensor.update (me, s) = ((me, s'), Raise TypeError).
Proof.
  intros Hread Hallowed Hsubject.
  run_update. rewrite Hread, Hallowed.
  unfold EmailContentSensor.get_msg_subject. rewrite Hsubject. reflexivity.
Qed.

(** X21.  With a template, whatever makes the rendering raise (a missing
    subject, a [text/plain] part, the template itself) is raised by [update]
    before anything is assigned: the published state is left as it was. *)
Theorem update_with_failing_template_keeps_state
    (me : EmailContentSensor.Self Template) (s s' : EmailReader.Sys World Conn)
    (email_message : Message) (t : Template) (e : exn) :
  EmailReader.read_next s = (s', Ret (Some email_message)) ->
  EmailContentSensor.sender_allowed me email_message = true ->
  EmailContentSensor._value_template me = Some t ->
  EmailContentSensor.render_template t email_message = Raise e ->
  EmailContentSensor.update (me, s) = ((me, s'), Raise e).
Proof.
  intros Hread Hallowed Htemplate Hrender.
  run_update. rewrite Hread, Hallowed, Htemplate.
  unfold EmailContentSensor.render_template, EmailContentSensor.message_fields in *.
  destruct (EmailContentSensor.get_msg_subject email_message) as [subject | e'];
    simpl in *.
  - rewrite Hrender. reflexivity.
  - injection Hrender as ->. reflexivity.
Qed.

(** X22.  Without a template, a message from an allowed sender whose subject
    decodes but whose body extraction raises (every message with a
    [text/plain] part) leaves the sensor half updated: the value has already
    been replaced by the new subject when [update] raises, while the
    attributes are still those of the previous message. *)
Theorem update_half_updates_when_body_raises
    (me : EmailContentSensor.Self Template) (s s' : EmailReader.Sys World Conn)
    (email_message : Message) (subject : string) (e : exn) :
  EmailReader.read_next s = (s', Ret (Some email_message)) ->
  EmailContentSensor.sender_allowed me email_message = true ->
  EmailContentSensor._value_template me = None ->
  EmailContentSensor.get_msg_subject email_message = Ret subject ->
  EmailContentSensor.get_msg_text email_message = Raise e ->
  EmailContentSensor.update (me, s) =
    ((EmailContentSensor.set_message (Some subject) me, s'), Raise e).
Proof.
  intros Hread Hallowed Htemplate Hsubject Hbody.
  run_update. rewrite Hread, Hallowed.
  unfold EmailContentSensor.message_fields.
  rewrite Hsubject, Htemplate. simpl. rewrite Hbody. reflexivity.
Qed.

(** X24.  Whenever the subject of a message from an allowed sender cannot be
    obtained (the header is missing, its charset is unknown, its bytes do not
    decode), [update] raises that exception before anything is assigned: the
    published state is left as it was, with or without a template. *)
Theorem update_raises_when_subject_raises
    (me : EmailContentSensor.Self Template) (s s' : EmailReader.Sys World Conn)
    (email_message : Message) (e : exn) :
  EmailReader.read_next s = (s', Ret (Some email_message)) ->
  EmailContentSensor.sender_allowed me email_message = true ->
  EmailContentSensor.get_msg_subject email_message = Raise e ->
  EmailContentSensor.update (me, s) = ((me, s'), Raise e).
Proof.
  intros Hread Hallowed Hsubject.
  run_update. rewrite Hread, Hallowed, Hsubject. reflexivity.
Qed.

(** X23.  When the session opens and the login is accepted, [setup_platform]
    adds exactly one entity: a connected sensor named after the configured
    name (the user name when no name is given), with the allow list in upper
    case and nothing published yet. *)
Theorem setup_platform_adds_connected_sensor
    (config : Config Template) (w w1 w2 : World) (c : Conn) :
  IMAP4_SSL (CONF_SERVER config) (CONF_PORT config) w = (w1, Ret c) ->
  imap_login c (CONF_USERNAME config) (CONF_PASSWORD config) w1 = (w2, Ret tt) ->
  snd (setup_platform config w) =
    Ret [ {| EmailContentSensor._name := sensor_name config;
             EmailContentSensor._allowed_senders := map upper (CONF_SENDERS config);
             EmailContentSensor._value_template := CONF_VALUE_TEMPLATE config;
             EmailContentSensor._last_id := None;
             EmailContentSensor._message := None;
             EmailContentSensor._state_attributes := None;
             EmailContentSensor.connected := true |} ]
  /\ EmailReader.connection (EmailReader.reader (fst (setup_platform config w))) = Some c.
Proof.
  intros Hssl Hlogin.
  unfold setup_platform, EmailContentSensor.__init__, bind.
  erewrite connect_success by (simpl; eauto).
  split; reflexivity.
Qed.

End MoreSensorFacts.

(** ** Further runs in the simulated environment *)

Section MoreRuns.
Import Simulated.

Lemma get_msg_text_raises_on_every_text_plain_part_witness :
  existsb is_text_plain (walk (parse_message mail_plain_from_jane)) = true
  /\ EmailContentSensor.get_msg_text (parse_message mail_plain_from_jane)
     = Raise (NameError "is_base64").
Proof.
  split; [reflexivity|].
  apply get_msg_text_raises_on_every_text_plain_part. reflexivity.
Defined.

Lemma get_msg_text_precedence_without_text_plain_witness :
  existsb is_text_plain (walk (parse_message mail_from_jane)) = false
  /\ EmailContentSensor.get_msg_text (parse_message mail_from_jane) = Ret (VStr "<p>Hi</p>").
Proof.
  split; [reflexivity|].
  exact (get_msg_text_precedence_without_text_plain (parse_message mail_from_jane) eq_refl).
Defined.

Lemma connect_success_witness :
  let s : EmailReader.Sys World nat :=
          {| EmailReader.reader :=
                EmailReader.__init__ "user" "secret" "mail.example.org" DEFAULT_PORT "INBOX";
              EmailReader.world := [ROpen (Ret 1%nat); RLogin (Ret tt)];
              EmailReader.events := [] |} in
  snd (EmailReader.connect s) = Ret true
  /\ EmailReader.connection (EmailReader.reader (fst (EmailReader.connect s))) = Some 1%nat.
Proof.
  intros s.
  rewrite (connect_success (client := client) s 1%nat [RLogin (Ret tt)] [] eq_refl eq_refl).
  split; reflexivity.
Defined.

Lemma connection_after_failed_connect_witness :
  let s1 := session None [] [ROpen (Raise IMAP4_error)] in
  let s2 := session None [] [ROpen (Ret 1%nat); RLogin (Raise IMAP4_error)] in
  (snd (EmailReader.connect s1) = Ret false
   /\ EmailReader.connection (EmailReader.reader (fst (EmailReader.connect s1))) = Some 0%nat)
  /\ (snd (EmailReader.connect s2) = Ret false
      /\ EmailReader.connection (EmailReader.reader (fst (EmailReader.connect s2))) = Some 1%nat).
Proof.
  intros s1 s2. split.
  - destruct (proj1 (connection_after_failed_connect (client := client) s1) [] eq_refl)
      as [Hresult Hreader].
    split; [exact Hresult | rewrite Hreader; reflexivity].
  - destruct (proj2 (connection_after_failed_connect (client := client) s2)
                1%nat [RLogin (Raise IMAP4_error)] [] eq_refl eq_refl)
      as [Hresult Hreader].
    split; [exact Hresult | rewrite Hreader; reflexivity].
Defined.

Lemma no_search_while_uids_are_pending_witness :
  let s := session (Some 5) ["9"]
             [RSelect (Ret tt); RFetch (Ret (Some [FetchTuple "" mail_from_jane]))] in
  pending_uids s <> [] /\ issued_searches (fst (EmailReader.read_next s)) = [].
Proof.
  intros s.
  assert (Hq : pending_uids s <> []) by discriminate.
  split; [exact Hq|].
  exact (no_search_while_uids_are_pending (client := client) (codec := codec) s Hq).
Defined.

Lemma delivers_first_newer_pending_uid_witness :
  let s := session (Some 9) ["9"; "10"; "11"]
             [RSelect (Ret tt); RFetch (Ret (Some [FetchTuple "" mail_from_jane]))] in
  Forall (already_seen (Some 9)) ["9"]
  /\ snd (EmailReader.read_next s) = Ret (Some (parse_message mail_from_jane))
  /\ last_seen_uid (fst (EmailReader.read_next s)) = Some 10
  /\ pending_uids (fst (EmailReader.read_next s)) = ["11"]
  /\ EmailReader.events (fst (EmailReader.read_next s)) = [EvSelect "INBOX"; EvFetch "10"].
Proof.
  intros s.
  assert (Hseen : Forall (already_seen (Some 9)) ["9"]).
  { repeat constructor. exists 9. split; [reflexivity | lia]. }
  split; [exact Hseen|].
  assert (Hnew : newer_than (Some 9) 10) by (simpl; lia).
  rewrite (delivers_first_newer_pending_uid (client := client) (codec := codec) s 0%nat
             [RFetch (Ret (Some [FetchTuple "" mail_from_jane]))] []
             ["9"] ["11"] "10" 10 (Some [FetchTuple "" mail_from_jane])
             eq_refl eq_refl eq_refl Hseen eq_refl Hnew eq_refl).
  repeat split.
Defined.

Lemma search_delivers_first_newer_uid_witness :
  let s := session (Some 9) []
             [RSelect (Ret tt); RSearch (Ret [Some "9 10 11"]);
              RFetch (Ret (Some [FetchTuple "" mail_from_jane]))] in
  split "9 10 11" = ["9"; "10"; "11"]
  /\ snd (EmailReader.read_next s) = Ret (Some (parse_message mail_from_jane))
  /\ last_seen_uid (fst (EmailReader.read_next s)) = Some 10
  /\ pending_uids (fst (EmailReader.read_next s)) = ["11"]
  /\ EmailReader.events (fst (EmailReader.read_next s))
     = [EvSelect "INBOX"; EvSearch "UID 9:*"; EvFetch "10"].
Proof.
  intros s.
  assert (Hseen : Forall (already_seen (Some 9)) ["9"]).
  { repeat constructor. exists 9. split; [reflexivity | lia]. }
  assert (Hnew : newer_than (Some 9) 10) by (simpl; lia).
  split; [reflexivity|].
  rewrite (search_delivers_first_newer_uid (client := client) (codec := codec) s 0%nat
             [RSearch (Ret [Some "9 10 11"]);
              RFetch (Ret (Some [FetchTuple "" mail_from_jane]))]
             [RFetch (Ret (Some [FetchTuple "" mail_from_jane]))] []
             "9 10 11" [] ["9"] ["11"] "10" 10 (Some [FetchTuple "" mail_from_jane])
             eq_refl eq_refl eq_refl eq_refl eq_refl Hseen eq_refl Hnew eq_refl).
  repeat split.
Defined.

Lemma fresh_session_without_mail_fetches_None_witness :
  let s := session None []
             [RSelect (Ret tt); RSearch (Ret [Some ""]); RFetch (Raise IMAP4_error);
              ROpen (Ret 1%nat); RLogin (Ret tt)] in
  split "" = []
  /\ exists l, EmailReader.events (fst (EmailReader.read_next s))
               = ([EvSelect "INBOX"; EvSearch "SINCE 07-Mar-2024"; EvFetch "None"] ++ l)%list.
Proof.
  intros s. split; [reflexivity|].
  exact (fresh_session_without_mail_fetches_None (client := client) (codec := codec) s 0%nat
           [RSearch (Ret [Some ""]); RFetch (Raise IMAP4_error);
            ROpen (Ret 1%nat); RLogin (Ret tt)]
           [RFetch (Raise IMAP4_error); ROpen (Ret 1%nat); RLogin (Ret tt)]
           "" [] eq_refl eq_refl eq_refl eq_refl eq_refl eq_refl).
Defined.

Lemma malformed_uid_raises_ValueError_witness :
  let s := session (Some 5) ["5"; "x7"; "8"] [RSelect (Ret tt)] in
  int "x7" = Raise ValueError
  /\ snd (EmailReader.read_next s) = Raise ValueError
  /\ pending_uids (fst (EmailReader.read_next s)) = ["8"]
  /\ last_seen_uid (fst (EmailReader.read_next s)) = Some 5.
Proof.
  intros s. split; [reflexivity|].
  assert (Hseen : Forall (already_seen (Some 5)) ["5"]).
  { repeat constructor. exists 5. split; [reflexivity | lia]. }
  rewrite (malformed_uid_raises_ValueError (client := client) (codec := codec) s 0%nat []
             ["5"] ["8"] "x7" eq_refl eq_refl eq_refl Hseen eq_refl).
  repeat split.
Defined.

Lemma poll_starts_with_select_witness :
  let s := session (Some 5) []
             [RSelect (Raise IMAP4_error); ROpen (Ret 1%nat); RLogin (Ret tt);
              RFetch (Ret (Some [FetchTuple "" mail_from_jane]))] in
  exists l, EmailReader.events (fst (EmailReader.read_next s)) = EvSelect "INBOX" :: l.
Proof.
  intros s.
  exact (poll_starts_with_select (client := client) (codec := codec) s 0%nat eq_refl).
Defined.

Lemma update_clears_state_on_None_witness :
  let s := session None [] [RSelect (Raise IMAP4_error); ROpen (Ret 1%nat); RLogin (Ret tt)] in
  let me := sensor ["JANE@EXAMPLE.COM"] None (Some "Garage door") in
  snd (EmailReader.read_next s) = Ret None
  /\ EmailContentSensor._message (fst (fst (EmailContentSensor.update (me, s)))) = None
  /\ EmailContentSensor._state_attributes (fst (fst (EmailContentSensor.update (me, s))))
     = Some ∅.
Proof.
  intros s me. split; [reflexivity|].
  assert (Hread : EmailReader.read_next s = (fst (EmailReader.read_next s), Ret None))
    by reflexivity.
  rewrite (update_clears_state_on_None (client := client) (codec := codec)
             (engine := templates) me s _ Hread).
  split; reflexivity.
Defined.

Lemma published_value_cleared_only_on_None_witness :
  let s := session None [] [RSelect (Raise IMAP4_error); ROpen (Ret 1%nat); RLogin (Ret tt)] in
  let me := sensor ["JANE@EXAMPLE.COM"] None (Some "Garage door") in
  EmailContentSensor._message (fst (fst (EmailContentSensor.update (me, s)))) = None
  /\ snd (EmailReader.read_next s) = Ret None.
Proof.
  intros s me.
  assert (Hcleared :
            EmailContentSensor._message (fst (fst (EmailContentSensor.update (me, s)))) = None)
    by reflexivity.
  split; [exact Hcleared|].
  apply (published_value_cleared_only_on_None (client := client) (codec := codec)
           (engine := templates) me s); [discriminate | exact Hcleared].
Defined.

Lemma update_publishes_subject_and_fields_witness :
  let s := delivering mail_from_jane in
  let me := sensor ["JANE@EXAMPLE.COM"] None (Some "Garage door") in
  EmailContentSensor._message (fst (fst (EmailContentSensor.update (me, s))))
    = Some "Front door"
  /\ exists attributes,
       EmailContentSensor._state_attributes (fst (fst (EmailContentSensor.update (me, s))))
         = Some attributes
       /\ attributes !! ATTR_FROM = Some (VStr "jane@example.com")
       /\ attributes !! ATTR_BODY = Some (VStr "<p>Hi</p>").
Proof.
  intros s me.
  assert (Hread : EmailReader.read_next s
                  = (fst (EmailReader.read_next s), Ret (Some (parse_message mail_from_jane))))
    by reflexivity.
  destruct (update_publishes_subject_and_fields (client := client) (codec := codec)
              (engine := templates) me s _ (parse_message mail_from_jane)
              "Front door" (VStr "<p>Hi</p>") Hread eq_refl eq_refl eq_refl eq_refl)
    as (attributes & Hrun & Hfrom & _ & _ & Hbody & _).
  rewrite Hrun. split; [reflexivity|].
  exists attributes. split; [reflexivity|]. split; [exact Hfrom | exact Hbody].
Defined.

Lemma update_publishes_rendered_template_witness :
  let s := delivering mail_from_jane in
  let me := sensor ["JANE@EXAMPLE.COM"] (Some tt) (Some "Garage door") in
  EmailContentSensor.render_template tt (parse_message mail_from_jane) = Ret "Front door"
  /\ EmailContentSensor._message (fst (fst (EmailContentSensor.update (me, s))))
     = Some "Front door".
Proof.
  intros s me.
  assert (Hrender : EmailContentSensor.render_template tt (parse_message mail_from_jane)
                    = Ret "Front door") by reflexivity.
  split; [exact Hrender|].
  assert (Hread : EmailReader.read_next s
                  = (fst (EmailReader.read_next s), Ret (Some (parse_message mail_from_jane))))
    by reflexivity.
  destruct (update_publishes_rendered_template (client := client) (codec := codec)
              (engine := templates) me s _ (parse_message mail_from_jane) tt
              "Front door" Hread eq_refl eq_refl Hrender)
    as (attributes & _ & _ & Hrun).
  rewrite Hrun. reflexivity.
Defined.

Lemma update_raises_on_missing_Subject_witness :
  let s := delivering mail_without_subject in
  let me := sensor ["JANE@EXAMPLE.COM"] None (Some "Garage door") in
  getitem (parse_message mail_without_subject) "Subject" = None
  /\ snd (EmailContentSensor.update (me, s)) = Raise TypeError
  /\ fst (fst (EmailContentSensor.update (me, s))) = me.
Proof.
  intros s me. split; [reflexivity|].
  assert (Hread : EmailReader.read_next s
                  = (fst (EmailReader.read_next s),
                     Ret (Some (parse_message mail_without_subject))))
    by reflexivity.
  rewrite (update_raises_on_missing_Subject (client := client) (codec := codec)
             (engine := templates) me s _ (parse_message mail_without_subject)
             Hread eq_refl eq_refl).
  split; reflexivity.
Defined.

Lemma update_with_failing_template_keeps_state_witness :
  let s := delivering mail_plain_from_jane in
  let me := sensor ["JANE@EXAMPLE.COM"] (Some tt) (Some "Garage door") in
  snd (EmailContentSensor.update (me, s)) = Raise (NameError "is_base64")
  /\ fst (fst (EmailContentSensor.update (me, s))) = me.
Proof.
  intros s me.
  assert (Hread : EmailReader.read_next s
                  = (fst (EmailReader.read_next s),
                     Ret (Some (parse_message mail_plain_from_jane))))
    by reflexivity.
  rewrite (update_with_failing_template_keeps_state (client := client) (codec := codec)
             (engine := templates) me s _ (parse_message mail_plain_from_jane) tt
             (NameError "is_base64") Hread eq_refl eq_refl eq_refl).
  split; reflexivity.
Defined.

Lemma update_half_updates_when_body_raises_witness :
  let s := delivering mail_plain_from_jane in
  let me := sensor ["JANE@EXAMPLE.COM"] None (Some "Garage door") in
  snd (EmailContentSensor.update (me, s)) = Raise (NameError "is_base64")
  /\ EmailContentSensor._message (fst (fst (EmailContentSensor.update (me, s))))
     = Some "Front door"
  /\ EmailContentSensor._state_attributes (fst (fst (EmailContentSensor.update (me, s))))
     = EmailContentSensor._state_attributes me.
Proof.
  intros s me.
  assert (Hread : EmailReader.read_next s
                  = (fst (EmailReader.read_next s),
                     Ret (Some (parse_message mail_plain_from_jane))))
    by reflexivity.
  rewrite (update_half_updates_when_body_raises (client := client) (codec := codec)
             (engine := templates) me s _ (parse_message mail_plain_from_jane)
             "Front door" (NameError "is_base64") Hread eq_refl eq_refl eq_refl eq_refl).
  repeat split.
Defined.

Lemma update_raises_when_subject_raises_witness :
  let s := delivering mail_with_unknown_charset in
  let me := sensor ["JANE@EXAMPLE.COM"] (Some tt) (Some "Garage door") in
  EmailContentSensor.get_msg_subject (parse_message mail_with_unknown_charset)
    = Raise LookupError
  /\ snd (EmailContentSensor.update (me, s)) = Raise LookupError
  /\ fst (fst (EmailContentSensor.update (me, s))) = me.
Proof.
  intros s me. split; [reflexivity|].
  assert (Hread : EmailReader.read_next s
                  = (fst (EmailReader.read_next s),
                     Ret (Some (parse_message mail_with_unknown_charset))))
    by reflexivity.
  rewrite (update_raises_when_subject_raises (client := client) (codec := codec)
             (engine := templates) me s _ (parse_message mail_with_unknown_charset)
             LookupError Hread eq_refl eq_refl).
  split; reflexivity.
Defined.

Lemma setup_platform_adds_connected_sensor_witness :
  exists me,
    snd (setup_platform (config ["jane@example.com"]) [ROpen (Ret 1%nat); RLogin (Ret tt)])
      = Ret [me]
    /\ EmailContentSensor._name me = "user"
    /\ EmailContentSensor._allowed_senders me = ["JANE@EXAMPLE.COM"]
    /\ EmailContentSensor.connected me = true.
Proof.
  destruct (setup_platform_adds_connected_sensor (client := client)
              (config ["jane@example.com"]) [ROpen (Ret 1%nat); RLogin (Ret tt)]
              [RLogin (Ret tt)] [] 1%nat eq_refl eq_refl) as [Hrun _].
  eexists. split; [exact Hrun|]. repeat split.
Defined.

End MoreRuns.
